(** * nn/layers.py: the differentiable-function protocol and its layers

    A shallow embedding of [src/nn/layers.py]: the classes [Function],
    [Layer], [Linear] and [Sigmoid], the numpy operations they call on
    two-dimensional arrays, and the properties of the forward / backward /
    gradient protocol. *)

From Stdlib Require Import ZArith QArith List Lia String.
From stdpp Require Import base gmap strings list.

Open Scope Z_scope.
Open Scope nat_scope.

(** ** Exceptions and results *)

Inductive exn : Type :=
  | TypeError
  | ValueError
  | AttributeError
  | ZeroDivisionError
  | OverflowError
  | MemoryError.

Inductive result (A : Type) : Type :=
  | Ok (a : A)
  | Err (e : exn).
Arguments Ok {A} a.
Arguments Err {A} e.

Definition is_err {A} (r : result A) : bool :=
  match r with Ok _ => false | Err _ => true end.

(** ** Scalars

    The entries of an array.  The layers only add and multiply entries
    ([np.dot], [+]); no algebraic law is assumed of these operations, so the
    development applies to machine floats as well as to exact numbers. *)

Class Scalar (R : Type) := {
  s_zero : R;
  s_add : R -> R -> R;
  s_mul : R -> R -> R;
}.

(** What [Linear.init_weights] needs on top: the literals [1] and [0.5],
    subtraction, true division with its test for a zero divisor, [math.sqrt]
    of a non-negative int, and the sequence of numbers that the process-wide
    generator behind [np.random.rand] hands out; and the limits of the
    platform it runs on: which ints a float can hold ([math.sqrt] converts
    its argument first), and which shapes numpy refuses to build, with the
    exception it raises ([ValueError] beyond its index range, [MemoryError]
    beyond the memory at hand). *)
Class InitScalar (R : Type) `{Scalar R} := {
  s_one : R;
  s_half : R;
  s_sub : R -> R -> R;
  s_div : R -> R -> R;
  s_is_zero : R -> bool;
  s_sqrt : Z -> R;
  draw : nat -> R;
  fits_float : Z -> bool;
  rand_refused : Z -> Z -> option exn;
}.

(** The one fact about numbers that construction relies on: the square root
    of a non-negative int is zero exactly when the int is. *)
Class InitScalarLaws (R : Type) `{InitScalar R} : Prop := {
  sqrt_is_zero : forall n : Z, (0 <= n)%Z -> s_is_zero (s_sqrt n) = (n =? 0)%Z;
}.

#[export] Instance Z_Scalar : Scalar Z :=
  {| s_zero := 0%Z; s_add := Z.add; s_mul := Z.mul |}.

#[export] Instance Q_Scalar : Scalar Q :=
  {| s_zero := 0%Q; s_add := Qplus; s_mul := Qmult |}.

(** The ints that convert to an IEEE double: those that do not round to
    [2^1024]. *)
Definition double_holds (n : Z) : bool :=
  (Z.abs n <? 2 ^ 1024 - 2 ^ 970)%Z.

(** What numpy refuses on a 64-bit platform with memory to spare, for
    8-byte entries: a dimension, or a byte count over the non-zero
    dimensions, beyond the signed 64-bit range. *)
Definition numpy64_refused (d0 d1 : Z) : option exn :=
  let nz := fun d : Z => if (d =? 0)%Z then 1%Z else d in
  if ((2 ^ 63 <=? d0) || (2 ^ 63 <=? d1)
      || (2 ^ 63 <=? 8 * nz d0 * nz d1))%Z%bool
  then Some ValueError
  else None.

(** A rational instance for running the constructor: the square root is
    rounded down to an integer and the generator always returns [1/4]. *)
#[export] Instance Q_InitScalar : InitScalar Q :=
  {| s_one := 1%Q; s_half := (1 # 2)%Q; s_sub := Qminus; s_div := Qdiv;
     s_is_zero := fun q => (Qnum q =? 0)%Z;
     s_sqrt := fun n => inject_Z (Z.sqrt n);
     draw := fun _ => (1 # 4)%Q;
     fits_float := double_holds;
     rand_refused := numpy64_refused |}.

(** ** Two-dimensional arrays *)

Section Arrays.
Context {R : Type} `{Scalar R}.

(** A 2-d [numpy.ndarray]: its rows, and the number of columns (which the
    rows alone do not determine when there are none). *)
Record ndarray : Type := mk_ndarray {
  ncols : nat;
  rows : list (list R);
}.

Definition nrows (a : ndarray) : nat := length (rows a).

Definition shape (a : ndarray) : nat * nat := (nrows a, ncols a).

Definition wf (a : ndarray) : Prop :=
  Forall (fun r => length r = ncols a) (rows a).

Definition get (a : ndarray) (i j : nat) : R :=
  nth j (nth i (rows a) []) s_zero.

(** The array of the given shape whose entries are [f i j]. *)
Definition tabulate (r c : nat) (f : nat -> nat -> R) : ndarray :=
  {| ncols := c;
     rows := map (fun i => map (fun j => f i j) (seq 0 c)) (seq 0 r) |}.

(** [a.T] *)
Definition transpose (a : ndarray) : ndarray :=
  {| ncols := nrows a;
     rows := map (fun j => map (fun r => nth j r s_zero) (rows a))
                 (seq 0 (ncols a)) |}.

(** The inner product of a row and a column, accumulated left to right. *)
Definition dotprod (u v : list R) : R :=
  fold_left (fun acc p => s_add acc (s_mul (fst p) (snd p))) (combine u v) s_zero.

Definition matmul (a b : ndarray) : ndarray :=
  {| ncols := ncols b;
     rows := map (fun r => map (dotprod r) (rows (transpose b))) (rows a) |}.

(** [np.dot(a, b)] and [a.dot(b)] on 2-d arrays: the inner dimensions must
    agree. *)
Definition np_dot (a b : ndarray) : result ndarray :=
  if decide (ncols a = nrows b) then Ok (matmul a b) else Err ValueError.

(** Broadcasting of one axis: equal lengths, or one of them is 1. *)
Definition bdim (m n : nat) : option nat :=
  if decide (m = n) then Some m
  else if decide (m = 1) then Some n
  else if decide (n = 1) then Some m
  else None.

(** The index read along an axis of length [n] that may be stretched. *)
Definition bidx (n i : nat) : nat := if decide (n = 1) then 0 else i.

(** [a + b] with numpy broadcasting. *)
Definition np_add (a b : ndarray) : result ndarray :=
  match bdim (nrows a) (nrows b), bdim (ncols a) (ncols b) with
  | Some r, Some c =>
      Ok (tabulate r c (fun i j =>
            s_add (get a (bidx (nrows a) i) (bidx (ncols a) j))
                  (get b (bidx (nrows b) i) (bidx (ncols b) j))))
  | _, _ => Err ValueError
  end.

(** Adding the row [b[0]] to every row of [a]: what broadcasting a bias of
    shape (1, n) across the batch dimension means. *)
Definition add_row (a b : ndarray) : ndarray :=
  tabulate (nrows a) (ncols a)
           (fun i j => s_add (get a i j) (get b 0 j)).

(** An elementwise operation with a scalar operand ([a - 0.5], [scale * a]). *)
Definition arr_map (f : R -> R) (a : ndarray) : ndarray :=
  {| ncols := ncols a; rows := map (map f) (rows a) |}.

(** The sum [f 0 + f 1 + ... + f (n-1)], associated to the left. *)
Fixpoint isum (f : nat -> R) (n : nat) : R :=
  match n with
  | O => s_zero
  | S m => s_add (isum f m) (f m)
  end.

End Arrays.

Arguments ndarray R : clear implicits.

(** ** Python values, instance state and the method monad *)

Section Layers.
Context {R : Type} `{InitScalar R}.

(** The values the methods receive and return: [None] or a 2-d array. *)
Inductive value : Type :=
  | VNone
  | VArr (a : ndarray R).

(** The arguments of a call made through [*args, **kwargs]. *)
Record pyargs : Type := mk_pyargs {
  pos : list value;
  kw : list (string * value);
}.

(** A call with one positional argument. *)
Definition one_arg (x : value) : pyargs := {| pos := [x]; kw := [] |}.

(** What a method can see and change: the attributes of [self], and how
    many numbers the process-wide random generator has handed out. *)
Record world : Type := mk_world {
  attrs : gmap string value;
  rng : nat;
}.

(** A method body: it runs on a world and leaves a world, also when it
    raises. *)
Definition M (A : Type) : Type := world -> world * result A.

Definition ret {A} (a : A) : M A := fun w => (w, Ok a).

Definition raise {A} (e : exn) : M A := fun w => (w, Err e).

Definition bind {A B} (m : M A) (k : A -> M B) : M B :=
  fun w => match m w with
           | (w', Ok a) => k a w'
           | (w', Err e) => (w', Err e)
           end.

Definition lift {A} (r : result A) : M A := fun w => (w, r).

(** [self.name] *)
Definition getattr (name : string) : M value :=
  fun w => match attrs w !! name with
           | Some v => (w, Ok v)
           | None => (w, Err AttributeError)
           end.

(** [self.name = v] *)
Definition set_attr (name : string) (v : value) (w : world) : world :=
  {| attrs := <[name := v]> (attrs w); rng := rng w |}.

Definition setattr (name : string) (v : value) : M unit :=
  fun w => (set_attr name v w, Ok tt).

End Layers.

Arguments value R : clear implicits.
Arguments pyargs R : clear implicits.
Arguments world R : clear implicits.

Notation "x <- c ;; k" := (bind c (fun x => k))
  (at level 100, c at next level, right associativity).
Notation "c ;;; k" := (bind c (fun _ => k))
  (at level 100, k at level 200, right associativity).

(** ** The classes *)

Section Classes.
Context {R : Type} `{InitScalar R}.

#[local] Abbreviation value := (value R).
#[local] Abbreviation pyargs := (pyargs R).
#[local] Abbreviation M := (@M R).

(** The methods of a differentiable function.  [A] is the type of the
    arguments the instance is called with, which [__call__] hands on to
    [gradX] and [forward] as they are. *)
Record FunctionClass (A : Type) : Type := {
  forward : A -> M value;
  backward : A -> M value;
  gradX : A -> M value;
}.

(** A layer adds the parameter life cycle. [I] is the type of the
    arguments of [init_weights]. *)
Record LayerClass (A I : Type) : Type := {
  as_function :> FunctionClass A;
  init_weights : I -> M value;
  update_weights : pyargs -> M value;
  gradW : value -> M value;
}.

Arguments forward {A} _ _ _.
Arguments backward {A} _ _ _.
Arguments gradX {A} _ _ _.
Arguments as_function {A I} _.
Arguments init_weights {A I} _ _ _.
Arguments update_weights {A I} _ _ _.
Arguments gradW {A I} _ _ _.

(** [Function.__call__] *)
Definition Function__call__ {A} (cls : FunctionClass A) (args : A) : M value :=
  g <- gradX cls args ;;
  setattr "gradX_local" g ;;;
  o <- forward cls args ;;
  setattr "output" o ;;;
  ret o.

(** *** [Function]: every method is [pass] *)

Definition Function__init__ (args : pyargs) : M value := ret VNone.
Definition Function_forward (args : pyargs) : M value := ret VNone.
Definition Function_backward (args : pyargs) : M value := ret VNone.
Definition Function_gradX (args : pyargs) : M value := ret VNone.

Definition Function_class : FunctionClass pyargs :=
  {| forward := Function_forward;
     backward := Function_backward;
     gradX := Function_gradX |}.

(** *** [Layer(Function)] *)

Definition Layer_init_weights (args : pyargs) : M value := ret VNone.
Definition Layer_update_weights (args : pyargs) : M value := ret VNone.
Definition Layer_gradW (x : value) : M value := ret VNone.

Definition Layer_class : LayerClass pyargs pyargs :=
  {| as_function := Function_class;
     init_weights := Layer_init_weights;
     update_weights := Layer_update_weights;
     gradW := Layer_gradW |}.



(** *** [Linear(Layer)] *)

(** [math.sqrt(n)] for an int [n]: the int is converted to a float, which
    overflows when it is too large; then a negative argument is a domain
    error. *)
Definition py_sqrt (n : Z) : result R :=
  if negb (fits_float n) then Err OverflowError
  else if (n <? 0)%Z then Err ValueError
  else Ok (s_sqrt n).

(** [a / b] on floats *)
Definition py_div (a b : R) : result R :=
  if s_is_zero b then Err ZeroDivisionError else Ok (s_div a b).

(** [np.random.rand(d0, d1)]: the next [d0 * d1] numbers of the generator,
    in row-major order.  A negative dimension is refused, and so is a shape
    that is too large for numpy or for the memory; nothing is drawn then. *)
Definition np_random_rand (d0 d1 : Z) : M (ndarray R) :=
  fun w =>
    if ((d0 <? 0)%Z || (d1 <? 0)%Z)%bool then (w, Err ValueError)
    else
      match rand_refused d0 d1 with
      | Some e => (w, Err e)
      | None =>
          let r := Z.to_nat d0 in
          let c := Z.to_nat d1 in
          ({| attrs := attrs w; rng := rng w + r * c |},
           Ok (tabulate r c (fun i j => draw (rng w + i * c + j))))
      end.

(** [scale * (a - 0.5)] *)
Definition scale_centered (scale : R) (a : ndarray R) : ndarray R :=
  arr_map (s_mul scale) (arr_map (fun v => s_sub v s_half) a).

Definition Linear_init_weights (dims : Z * Z) : M value :=
  let '(in_dim, out_dim) := dims in
  r <- lift (py_sqrt in_dim) ;;
  scale <- lift (py_div s_one r) ;;
  w0 <- np_random_rand in_dim out_dim ;;
  setattr "weight" (VArr (scale_centered scale w0)) ;;;
  b0 <- np_random_rand 1 out_dim ;;
  setattr "bias" (VArr (scale_centered scale b0)) ;;;
  ret VNone.

Definition Linear_update_weights (args : pyargs) : M value := ret VNone.

(** The operands of [np.dot(x, w)]; [None] is not a number. *)
Definition py_np_dot (x w : value) : result value :=
  match x, w with
  | VArr a, VArr b =>
      match np_dot a b with Ok c => Ok (VArr c) | Err e => Err e end
  | _, _ => Err TypeError
  end.

(** [a + b] *)
Definition py_add (a b : value) : result value :=
  match a, b with
  | VArr a, VArr b =>
      match np_add a b with Ok c => Ok (VArr c) | Err e => Err e end
  | _, _ => Err TypeError
  end.

(** [v.T] *)
Definition py_T (v : value) : result (ndarray R) :=
  match v with
  | VArr a => Ok (transpose a)
  | VNone => Err AttributeError
  end.

(** [np.dot(x, self.weight) + self.bias] *)
Definition Linear_forward (x : value) : M value :=
  w <- getattr "weight" ;;
  d <- lift (py_np_dot x w) ;;
  b <- getattr "bias" ;;
  lift (py_add d b).

(** [dy.dot(self.weight.T)] *)
Definition Linear_backward (dy : value) : M value :=
  match dy with
  | VNone => raise AttributeError
  | VArr d =>
      w <- getattr "weight" ;;
      wT <- lift (py_T w) ;;
      lift (match np_dot d wT with Ok c => Ok (VArr c) | Err e => Err e end)
  end.

(** [return self.weight] *)
Definition Linear_gradX (x : value) : M value := getattr "weight".

Definition Linear_gradW (x : value) : M value := ret VNone.

(** The methods of [Linear] that it has as a [Function] ... *)
Definition Linear_function : FunctionClass value :=
  {| forward := Linear_forward;
     backward := Linear_backward;
     gradX := Linear_gradX |}.

(** ... and all of them. *)
Definition Linear_class : LayerClass value (Z * Z) :=
  {| as_function := Linear_function;
     init_weights := Linear_init_weights;
     update_weights := Linear_update_weights;
     gradW := Linear_gradW |}.

(** [Linear.__init__] *)
Definition Linear__init__ (in_dim out_dim : Z) : M value :=
  Function__init__ {| pos := []; kw := [] |} ;;;
  init_weights Linear_class (in_dim, out_dim) ;;;
  ret VNone.

(** [Linear(in_dim, out_dim)]: [__init__] runs on an instance without
    attributes; the instance exists only if [__init__] returns.  The
    generator keeps what it handed out either way. *)
Definition Linear_new (in_dim out_dim : Z) (rng0 : nat)
  : nat * result (gmap string value) :=
  match Linear__init__ in_dim out_dim {| attrs := ∅; rng := rng0 |} with
  | (w, Ok _) => (rng w, Ok (attrs w))
  | (w, Err e) => (rng w, Err e)
  end.

(** *** [Sigmoid(Layer)] *)

Section Sigmoid.
(** [sigmoid] and [sigmoid_prime] of [nn/functional.py], and numpy's
    [np.diag(a.reshape(-1))]; they see their argument only. *)
Variable sigmoid : value -> result value.
Variable sigmoid_prime : value -> result value.
Variable diag_flat : value -> result value.

Definition Sigmoid_forward (x : value) : M value := lift (sigmoid x).

Definition Sigmoid_dx (x : value) : M value :=
  p <- lift (sigmoid_prime x) ;;
  lift (diag_flat p).

(** [forward] is overridden; [backward], [gradX], [update_weights] and
    [gradW] are those of [Layer] and [Function]. *)
Definition Sigmoid_function : FunctionClass value :=
  {| forward := Sigmoid_forward;
     backward := fun dy => backward Layer_class (one_arg dy);
     gradX := fun x => gradX Layer_class (one_arg x) |}.

Definition Sigmoid_class : LayerClass value pyargs :=
  {| as_function := Sigmoid_function;
     init_weights := init_weights Layer_class;
     update_weights := update_weights Layer_class;
     gradW := gradW Layer_class |}.

End Sigmoid.

(** Two worlds that differ at most in the cached [output]. *)
Definition agree_off_output (w w' : world R) : Prop :=
  forall name : string, name <> "output" -> attrs w !! name = attrs w' !! name.

(** Two worlds that differ at most in what [__call__] caches. *)
Definition agree_off_cache (w w' : world R) : Prop :=
  forall name : string,
    name <> "output" -> name <> "gradX_local" ->
    attrs w !! name = attrs w' !! name.

(** The result of [gradX] is the same in worlds that differ in the cached
    output only. *)
Definition gradX_ignores_output {A} (cls : FunctionClass A) : Prop :=
  forall (args : A) (w w' : world R),
    agree_off_output w w' ->
    snd (gradX cls args w) = snd (gradX cls args w').

(** The result of [backward] is the same in worlds that differ in what
    [__call__] caches only. *)
Definition backward_ignores_cache {A} (cls : FunctionClass A) : Prop :=
  forall (args : A) (w w' : world R),
    agree_off_cache w w' ->
    snd (backward cls args w) = snd (backward cls args w').

(** A method run that leaves both parameters of the layer as they were. *)
Definition keeps_parameters {A} (m : M A) : Prop :=
  forall w : world R,
    attrs (fst (m w)) !! "weight" = attrs w !! "weight" /\
    attrs (fst (m w)) !! "bias" = attrs w !! "bias".

End Classes.

Arguments forward {R A} _ _ _.
Arguments backward {R A} _ _ _.
Arguments gradX {R A} _ _ _.
Arguments as_function {R A I} _.
Arguments init_weights {R A I} _ _ _.
Arguments update_weights {R A I} _ _ _.
Arguments gradW {R A I} _ _ _.

(** ** The scenario of the test suite

    [Linear(3, 2)] with its weight fixed to [[1,0],[0,1],[1,1]] and its bias
    to [[0,0]]; neither the instance nor any other has been called. *)

Definition scenario_weight : ndarray Z :=
  mk_ndarray 2 [[1; 0]; [0; 1]; [1; 1]]%Z.

Definition scenario_bias : ndarray Z := mk_ndarray 2 [[0; 0]]%Z.

Definition scenario_world : world Z :=
  {| attrs := <["weight" := VArr scenario_weight]>
                (<["bias" := VArr scenario_bias]> ∅);
     rng := 0 |}.

Definition scenario_input : ndarray Z := mk_ndarray 3 [[1; 2; 3]]%Z.

Definition scenario_upstream : ndarray Z := mk_ndarray 2 [[1; 1]]%Z.

(** ** The arrays that construction assigns *)

Section Drawn.
Context {R : Type} `{InitScalar R}.

(** [1 / sqrt(in_dim)] *)
Definition init_scale (in_dim : Z) : R := s_div s_one (s_sqrt in_dim).

(** The array of shape (r, c) made of the generator's numbers from
    position [start] on, centred and scaled for the fan-in [in_dim]. *)
Definition drawn_array (in_dim : Z) (r c start : nat) : ndarray R :=
  scale_centered (init_scale in_dim)
                 (tabulate r c (fun i j => draw (start + i * c + j))).

End Drawn.

(** ** What the further properties speak of *)

Section MoreArrays.
Context {R : Type} `{Scalar R}.

(** [a.reshape(-1)]: the entries of [a] in row-major order. *)
Definition flatten (a : ndarray R) : list R := concat (rows a).

(** [np.diag(v)] for a 1-d [v]: the square array with [v] on its diagonal
    and zero elsewhere. *)
Definition np_diag (v : list R) : ndarray R :=
  tabulate (length v) (length v)
           (fun i j => if decide (i = j) then nth i v s_zero else s_zero).

(** [np.diag(p.reshape(-1))]; [None] has no [reshape]. *)
Definition py_diag_flat (p : value R) : result (value R) :=
  match p with
  | VNone => Err AttributeError
  | VArr a => Ok (VArr (np_diag (flatten a)))
  end.

(** [a[i:i+1]] for a row [i] that [a] has: the batch of that one example. *)
Definition row_batch (a : ndarray R) (i : nat) : ndarray R :=
  {| ncols := ncols a; rows := [nth i (rows a) []] |}.

(** A class whose [gradX] and [forward] only read the instance, and read
    nothing of what [__call__] caches. *)
Definition cache_oblivious {A} (cls : FunctionClass (R:=R) A) : Prop :=
  (forall (a : A) (w : world R), fst (gradX cls a w) = w) /\
  (forall (a : A) (w : world R), fst (forward cls a w) = w) /\
  (forall (a : A) (w w' : world R),
      agree_off_cache w w' ->
      snd (gradX cls a w) = snd (gradX cls a w') /\
      snd (forward cls a w) = snd (forward cls a w')).

End MoreArrays.

(** Exact arithmetic: the laws of a commutative semiring, which machine
    floats do not obey. *)
Class ExactScalar (R : Type) `{Scalar R} : Prop := {
  add_comm : forall a b : R, s_add a b = s_add b a;
  add_assoc : forall a b c : R, s_add a (s_add b c) = s_add (s_add a b) c;
  add_zero_l : forall a : R, s_add s_zero a = a;
  mul_comm : forall a b : R, s_mul a b = s_mul b a;
  mul_assoc : forall a b c : R, s_mul a (s_mul b c) = s_mul (s_mul a b) c;
  mul_zero_r : forall a : R, s_mul a s_zero = s_zero;
  mul_add_distr_l : forall a b c : R,
      s_mul a (s_add b c) = s_add (s_mul a b) (s_mul a c);
}.

(** * Properties *)

(** ** Arrays *)

Section ArrayFacts.
Context {R : Type} `{Scalar R}.

#[local] Abbreviation ndarray := (ndarray R).

Lemma nth_map_lt {A B} (f : A -> B) (l : list A) (i : nat) (d : B) (d' : A) :
  i < length l -> nth i (map f l) d = f (nth i l d').
Proof.
  intros Hi. rewrite (nth_indep _ d (f d')) by (rewrite length_map; exact Hi).
  apply map_nth.
Qed.

(** Reading position [i] of column [j] is reading entry [(i, j)]. *)
Lemma nth_column {A} (l : list (list A)) (i j : nat) (d : A) :
  nth i (map (fun r => nth j r d) l) d = nth j (nth i l []) d.
Proof.
  destruct (Nat.lt_ge_cases i (length l)) as [Hi|Hi].
  - rewrite (nth_map_lt _ _ _ _ []) by exact Hi. reflexivity.
  - rewrite (nth_overflow l) by exact Hi.
    rewrite nth_overflow by (rewrite length_map; exact Hi).
    destruct j; reflexivity.
Qed.

Lemma snoc_of_length {A} (n : nat) (l : list A) :
  length l = S n -> exists l' a, l = l' ++ [a] /\ length l' = n.
Proof.
  intros Hl. destruct l as [|a l' _] using rev_ind; [discriminate|].
  exists l', a. split; [reflexivity|].
  rewrite length_app in Hl. simpl in Hl. lia.
Qed.

Lemma combine_snoc {A B} (u : list A) (v : list B) (a : A) (b : B) :
  length u = length v ->
  combine (u ++ [a]) (v ++ [b]) = combine u v ++ [(a, b)].
Proof.
  revert v. induction u as [|x u IH]; intros [|y v] Hl; try discriminate.
  - reflexivity.
  - simpl. f_equal. apply IH. simpl in Hl. lia.
Qed.

Lemma dotprod_snoc (u v : list R) (a b : R) :
  length u = length v ->
  dotprod (u ++ [a]) (v ++ [b]) = s_add (dotprod u v) (s_mul a b).
Proof.
  intros Hl. unfold dotprod. rewrite combine_snoc by exact Hl.
  rewrite fold_left_app. reflexivity.
Qed.

Lemma isum_ext (f g : nat -> R) (n : nat) :
  (forall k, k < n -> f k = g k) -> isum f n = isum g n.
Proof.
  induction n as [|n IH]; intros Hfg; [reflexivity|].
  simpl. rewrite IH by (intros k Hk; apply Hfg; lia).
  rewrite Hfg by lia. reflexivity.
Qed.

(** The list fold of [dotprod] is the indexed sum over the common length. *)
Lemma dotprod_isum (n : nat) : forall u v : list R,
  length u = n -> length v = n ->
  dotprod u v = isum (fun k => s_mul (nth k u s_zero) (nth k v s_zero)) n.
Proof.
  induction n as [|n IH]; intros u v Hu Hv.
  - destruct u; [|discriminate]. reflexivity.
  - destruct (snoc_of_length n u Hu) as (u' & a & -> & Hu').
    destruct (snoc_of_length n v Hv) as (v' & b & -> & Hv').
    rewrite dotprod_snoc by congruence.
    simpl. rewrite (IH u' v' Hu' Hv'). f_equal.
    + apply isum_ext. intros k Hk.
      rewrite !app_nth1 by lia. reflexivity.
    + rewrite !app_nth2 by lia. rewrite Hu', Hv', Nat.sub_diag. reflexivity.
Qed.

Lemma wf_row (a : ndarray) (i : nat) :
  wf a -> i < nrows a -> length (nth i (rows a) []) = ncols a.
Proof.
  unfold wf, nrows. intros Hwf Hi.
  rewrite List.Forall_forall in Hwf. apply Hwf. apply nth_In. exact Hi.
Qed.

(** *** [tabulate] *)

Lemma tabulate_shape (r c : nat) (f : nat -> nat -> R) :
  shape (tabulate r c f) = (r, c).
Proof. unfold shape, nrows, tabulate. simpl. rewrite length_map, length_seq. reflexivity. Qed.

Lemma tabulate_wf (r c : nat) (f : nat -> nat -> R) : wf (tabulate r c f).
Proof.
  unfold wf, tabulate. simpl. apply List.Forall_forall. intros row Hrow.
  apply in_map_iff in Hrow as (i & <- & _).
  rewrite length_map, length_seq. reflexivity.
Qed.

Lemma tabulate_get (r c : nat) (f : nat -> nat -> R) (i j : nat) :
  i < r -> j < c -> get (tabulate r c f) i j = f i j.
Proof.
  intros Hi Hj. unfold get, tabulate. simpl.
  rewrite (nth_map_lt _ _ _ _ 0) by (rewrite length_seq; exact Hi).
  rewrite (nth_map_lt _ _ _ _ 0) by (rewrite length_seq; exact Hj).
  rewrite !seq_nth by assumption. reflexivity.
Qed.

(** *** [transpose] *)

Lemma transpose_shape (a : ndarray) : shape (transpose a) = (ncols a, nrows a).
Proof. unfold shape, nrows, transpose. simpl. rewrite length_map, length_seq. reflexivity. Qed.

Lemma transpose_wf (a : ndarray) : wf (transpose a).
Proof.
  unfold wf, transpose. simpl. apply List.Forall_forall. intros row Hrow.
  apply in_map_iff in Hrow as (j & <- & _).
  rewrite length_map. reflexivity.
Qed.

Lemma transpose_row (a : ndarray) (j : nat) :
  j < ncols a ->
  nth j (rows (transpose a)) [] = map (fun r => nth j r s_zero) (rows a).
Proof.
  intros Hj. unfold transpose. simpl.
  rewrite (nth_map_lt _ _ _ _ 0) by (rewrite length_seq; exact Hj).
  rewrite seq_nth by exact Hj. reflexivity.
Qed.

Lemma transpose_get (a : ndarray) (i j : nat) :
  j < ncols a -> get (transpose a) j i = get a i j.
Proof.
  intros Hj. unfold get. rewrite transpose_row by exact Hj.
  apply nth_column.
Qed.

(** *** [matmul] and [np_dot] *)

Lemma matmul_shape (a b : ndarray) : shape (matmul a b) = (nrows a, ncols b).
Proof. unfold shape, nrows, matmul. simpl. rewrite length_map. reflexivity. Qed.

Lemma matmul_wf (a b : ndarray) : wf (matmul a b).
Proof.
  unfold wf, matmul. simpl. apply List.Forall_forall. intros row Hrow.
  apply in_map_iff in Hrow as (r & <- & _).
  rewrite !length_map, length_seq. reflexivity.
Qed.

(** Entry [(i, j)] of the product is the sum over [k] of
    [a[i][k] * b[k][j]]. *)
Lemma matmul_get (a b : ndarray) (i j : nat) :
  wf a -> ncols a = nrows b -> i < nrows a -> j < ncols b ->
  get (matmul a b) i j
  = isum (fun k => s_mul (get a i k) (get b k j)) (ncols a).
Proof.
  intros Hwf Hin Hi Hj. unfold get at 1.
  change (rows (matmul a b))
    with (map (fun r => map (dotprod r) (rows (transpose b))) (rows a)).
  rewrite (nth_map_lt _ _ _ _ []) by exact Hi.
  assert (Hjt : j < length (rows (transpose b))).
  { change (length (rows (transpose b))) with (fst (shape (transpose b))).
    rewrite transpose_shape. exact Hj. }
  rewrite (nth_map_lt _ _ _ _ []) by exact Hjt.
  rewrite transpose_row by exact Hj.
  rewrite (dotprod_isum (ncols a)).
  - apply isum_ext. intros k Hk. f_equal. unfold get. apply nth_column.
  - apply wf_row; assumption.
  - rewrite length_map. symmetry. exact Hin.
Qed.

Lemma np_dot_ok (a b : ndarray) :
  ncols a = nrows b -> np_dot a b = Ok (matmul a b).
Proof. intros Hin. unfold np_dot. rewrite decide_True by exact Hin. reflexivity. Qed.

Lemma np_dot_mismatch (a b : ndarray) :
  ncols a <> nrows b -> np_dot a b = Err ValueError.
Proof. intros Hin. unfold np_dot. rewrite decide_False by exact Hin. reflexivity. Qed.

(** *** Broadcasting a row over a batch *)

Lemma bdim_row (m : nat) : bdim m 1 = Some m.
Proof.
  unfold bdim. destruct (decide (m = 1)) as [->|Hm]; [reflexivity|].
  rewrite decide_True by reflexivity. reflexivity.
Qed.

Lemma bdim_same (m : nat) : bdim m m = Some m.
Proof. unfold bdim. rewrite decide_True by reflexivity. reflexivity. Qed.

Lemma bidx_lt (n i : nat) : i < n -> bidx n i = i.
Proof. unfold bidx. intros Hi. destruct (decide (n = 1)); lia. Qed.

Lemma tabulate_ext (r c : nat) (f g : nat -> nat -> R) :
  (forall i j, i < r -> j < c -> f i j = g i j) ->
  tabulate r c f = tabulate r c g.
Proof.
  intros Hfg. unfold tabulate. f_equal.
  apply map_ext_in. intros i Hi. apply in_seq in Hi.
  apply map_ext_in. intros j Hj. apply in_seq in Hj.
  apply Hfg; lia.
Qed.

Lemma np_add_row (a b : ndarray) :
  nrows b = 1 -> ncols b = ncols a -> np_add a b = Ok (add_row a b).
Proof.
  intros Hb Hc. unfold np_add, add_row. rewrite Hb, Hc, bdim_row, bdim_same.
  f_equal. apply tabulate_ext. intros i j Hi Hj.
  rewrite !bidx_lt by assumption. reflexivity.
Qed.

End ArrayFacts.

(** ** The method monad *)

Section MonadFacts.
Context {R : Type}.

Lemma bind_ok {A B} (m : M (R:=R) A) (k : A -> M B) (w w' : world R) (a : A) :
  m w = (w', Ok a) -> bind m k w = k a w'.
Proof. intros Hm. unfold bind. rewrite Hm. reflexivity. Qed.

Lemma bind_err {A B} (m : M (R:=R) A) (k : A -> M B) (w w' : world R) (e : exn) :
  m w = (w', Err e) -> bind m k w = (w', Err e).
Proof. intros Hm. unfold bind. rewrite Hm. reflexivity. Qed.

Lemma getattr_some (name : string) (v : value R) (w : world R) :
  attrs w !! name = Some v -> getattr name w = (w, Ok v).
Proof. intros Hv. unfold getattr. rewrite Hv. reflexivity. Qed.

Lemma getattr_none (name : string) (w : world R) :
  attrs w !! name = None -> getattr name w = (w, Err AttributeError).
Proof. intros Hv. unfold getattr. rewrite Hv. reflexivity. Qed.

(** Reading an attribute never changes the world. *)
Lemma getattr_world (name : string) (w : world R) : fst (getattr name w) = w.
Proof. unfold getattr. destruct (attrs w !! name); reflexivity. Qed.

End MonadFacts.

(** ** [Linear.forward] *)

Section LinearFacts.
Context {R : Type} `{Scalar R}.

Lemma Linear_forward_run (W b x : ndarray R) (w : world R) :
  attrs w !! "weight" = Some (VArr W) ->
  attrs w !! "bias" = Some (VArr b) ->
  ncols x = nrows W -> nrows b = 1 -> ncols b = ncols W ->
  Linear_forward (VArr x) w = (w, Ok (VArr (add_row (matmul x W) b))).
Proof.
  intros Hw Hb Hin Hb1 Hbc. unfold Linear_forward.
  rewrite (bind_ok _ _ _ _ _ (getattr_some _ _ _ Hw)).
  unfold lift at 1, py_np_dot. rewrite np_dot_ok by exact Hin.
  unfold bind at 1.
  rewrite (bind_ok _ _ _ _ _ (getattr_some _ _ _ Hb)).
  unfold lift, py_add. rewrite np_add_row; [reflexivity | exact Hb1 |].
  rewrite Hbc. reflexivity.
Qed.

End LinearFacts.

(** C1. A Linear layer whose weight has shape (in_dim, out_dim) and whose
    bias has shape (1, out_dim) maps a batch [x] of shape (batch, in_dim)
    to [x · weight + bias]: [forward] returns an array of shape
    (batch, out_dim) whose entry (i, j) is the sum over k of
    [x[i][k] * weight[k][j]], plus [bias[0][j]] (the bias row is added to
    every row of the batch), and leaves the layer as it was.  With weight
    [[1,0],[0,1],[1,1]], bias [[0,0]] and input [[1,2,3]] the output is
    [[4,5]]. *)
Theorem Linear_forward_affine :
  (forall (R : Type) (SR : Scalar R) (W b x : ndarray R) (w : world R)
          (batch in_dim out_dim : nat),
      attrs w !! "weight" = Some (VArr W) ->
      attrs w !! "bias" = Some (VArr b) ->
      shape W = (in_dim, out_dim) ->
      shape b = (1, out_dim) ->
      wf x -> shape x = (batch, in_dim) ->
      exists y : ndarray R,
        Linear_forward (VArr x) w = (w, Ok (VArr y)) /\
        (exists d : ndarray R, np_dot x W = Ok d /\ np_add d b = Ok y) /\
        shape y = (batch, out_dim) /\ wf y /\
        forall i j, i < batch -> j < out_dim ->
          get y i j
          = s_add (isum (fun k => s_mul (get x i k) (get W k j)) in_dim)
                  (get b 0 j))
  /\ Linear_forward (VArr scenario_input) scenario_world
     = (scenario_world, Ok (VArr (mk_ndarray 2 [[4; 5]]%Z))).
Proof.
  split; [|reflexivity].
  intros R SR W b x w batch in_dim out_dim Hw Hb HW Hbs Hwf Hx.
  injection HW as HWr HWc. injection Hbs as Hbr Hbc. injection Hx as Hxr Hxc.
  exists (add_row (matmul x W) b). split; [|split; [|split; [|split]]].
  - apply Linear_forward_run; congruence.
  - exists (matmul x W). split.
    + apply np_dot_ok. congruence.
    + apply np_add_row; [exact Hbr|].
      change (ncols (matmul x W)) with (ncols W). congruence.
  - unfold add_row. rewrite tabulate_shape.
    change (ncols (matmul x W)) with (ncols W).
    change (nrows (matmul x W)) with (fst (shape (matmul x W))).
    rewrite matmul_shape. simpl. congruence.
  - apply tabulate_wf.
  - intros i j Hi Hj. unfold add_row.
    assert (Hr : nrows (matmul x W) = batch).
    { change (nrows (matmul x W)) with (fst (shape (matmul x W))).
      rewrite matmul_shape. exact Hxr. }
    rewrite tabulate_get.
    + rewrite matmul_get by (try assumption; lia). rewrite Hxc. reflexivity.
    + lia.
    + change (ncols (matmul x W)) with (ncols W). lia.
Qed.

Lemma Linear_forward_affine_witness :
  exists y : ndarray Z,
    Linear_forward (VArr scenario_input) scenario_world
    = (scenario_world, Ok (VArr y)) /\
    (exists d : ndarray Z,
        np_dot scenario_input scenario_weight = Ok d /\
        np_add d scenario_bias = Ok y) /\
    shape y = (1, 2) /\ wf y /\
    forall i j, i < 1 -> j < 2 ->
      get y i j
      = s_add (isum (fun k => s_mul (get scenario_input i k)
                                    (get scenario_weight k j)) 3)
              (get scenario_bias 0 j).
Proof.
  apply (proj1 Linear_forward_affine Z Z_Scalar scenario_weight scenario_bias
               scenario_input scenario_world 1 3 2);
    try reflexivity.
  repeat constructor.
Defined.

(** ** [Linear.backward] *)

Section LinearBackwardFacts.
Context {R : Type} `{Scalar R}.

Lemma transpose_nrows (a : ndarray R) : nrows (transpose a) = ncols a.
Proof.
  change (nrows (transpose a)) with (fst (shape (transpose a))).
  rewrite transpose_shape. reflexivity.
Qed.

Lemma Linear_backward_run (W dy : ndarray R) (w : world R) :
  attrs w !! "weight" = Some (VArr W) ->
  ncols dy = ncols W ->
  Linear_backward (VArr dy) w = (w, Ok (VArr (matmul dy (transpose W)))).
Proof.
  intros Hw Hout. unfold Linear_backward.
  rewrite (bind_ok _ _ _ _ _ (getattr_some _ _ _ Hw)).
  unfold lift, py_T, bind.
  rewrite np_dot_ok by (rewrite transpose_nrows; exact Hout).
  reflexivity.
Qed.

(** Entry (i, k) of [dy · W^T] is the sum over j of [dy[i][j] * W[k][j]]. *)
Lemma matmul_transpose_get (W dy : ndarray R) (i k : nat) :
  wf dy -> ncols dy = ncols W -> i < nrows dy -> k < nrows W ->
  get (matmul dy (transpose W)) i k
  = isum (fun j => s_mul (get dy i j) (get W k j)) (ncols W).
Proof.
  intros Hwf Hout Hi Hk.
  rewrite matmul_get; [| exact Hwf | | exact Hi | exact Hk].
  - rewrite Hout. apply isum_ext. intros j Hj.
    rewrite transpose_get by exact Hj. reflexivity.
  - rewrite transpose_nrows. exact Hout.
Qed.

End LinearBackwardFacts.

(** C2. For a Linear layer whose weight has shape (in_dim, out_dim) and an
    upstream gradient [dy] of shape (batch, out_dim), [backward] returns
    [dy · weight^T]: an array of shape (batch, in_dim) whose entry (i, k) is
    the sum over j of [dy[i][j] * weight[k][j]].  With weight
    [[1,0],[0,1],[1,1]] and upstream [[1,1]] the downstream gradient is
    [[1,1,2]]. *)
Theorem Linear_backward_transpose :
  (forall (R : Type) (SR : Scalar R) (W dy : ndarray R) (w : world R)
          (batch in_dim out_dim : nat),
      attrs w !! "weight" = Some (VArr W) ->
      shape W = (in_dim, out_dim) ->
      wf dy -> shape dy = (batch, out_dim) ->
      exists dx : ndarray R,
        Linear_backward (VArr dy) w = (w, Ok (VArr dx)) /\
        np_dot dy (transpose W) = Ok dx /\
        shape dx = (batch, in_dim) /\ wf dx /\
        forall i k, i < batch -> k < in_dim ->
          get dx i k
          = isum (fun j => s_mul (get dy i j) (get W k j)) out_dim)
  /\ Linear_backward (VArr scenario_upstream) scenario_world
     = (scenario_world, Ok (VArr (mk_ndarray 3 [[1; 1; 2]]%Z))).
Proof.
  split; [|reflexivity].
  intros R SR W dy w batch in_dim out_dim Hw HW Hwf Hdy.
  injection HW as HWr HWc. injection Hdy as Hdr Hdc.
  exists (matmul dy (transpose W)). split; [|split; [|split; [|split]]].
  - apply Linear_backward_run; congruence.
  - apply np_dot_ok. rewrite transpose_nrows. congruence.
  - rewrite matmul_shape. change (ncols (transpose W)) with (nrows W).
    congruence.
  - apply matmul_wf.
  - intros i k Hi Hk.
    rewrite matmul_transpose_get by (try assumption; lia).
    rewrite HWc. reflexivity.
Qed.

Lemma Linear_backward_transpose_witness :
  exists dx : ndarray Z,
    Linear_backward (VArr scenario_upstream) scenario_world
    = (scenario_world, Ok (VArr dx)) /\
    np_dot scenario_upstream (transpose scenario_weight) = Ok dx /\
    shape dx = (1, 3) /\ wf dx /\
    forall i k, i < 1 -> k < 3 ->
      get dx i k
      = isum (fun j => s_mul (get scenario_upstream i j)
                             (get scenario_weight k j)) 2.
Proof.
  apply (proj1 Linear_backward_transpose Z Z_Scalar scenario_weight
               scenario_upstream scenario_world 1 3 2);
    try reflexivity.
  repeat constructor.
Defined.

(** ** [Linear.gradX] *)

(** C3. [gradX] of a Linear layer returns the layer's weight, whatever
    the input is: for any two inputs [x1] and [x2] the two results are the
    weight, and the layer is left as it was. *)
Theorem Linear_gradX_weight :
  forall (R : Type) (w : world R) (wt x1 x2 : value R),
    attrs w !! "weight" = Some wt ->
    Linear_gradX x1 w = (w, Ok wt) /\
    Linear_gradX x2 w = (w, Ok wt) /\
    Linear_gradX x1 w = Linear_gradX x2 w.
Proof.
  intros R w wt x1 x2 Hw. unfold Linear_gradX.
  rewrite (getattr_some _ _ _ Hw). repeat split.
Qed.

Lemma Linear_gradX_weight_witness :
  Linear_gradX (VArr scenario_input) scenario_world
  = (scenario_world, Ok (VArr scenario_weight)) /\
  Linear_gradX VNone scenario_world
  = (scenario_world, Ok (VArr scenario_weight)) /\
  Linear_gradX (VArr scenario_input) scenario_world
  = Linear_gradX VNone scenario_world.
Proof.
  apply (Linear_gradX_weight Z scenario_world (VArr scenario_weight)
                             (VArr scenario_input) VNone).
  reflexivity.
Defined.

(** ** [Function.__call__] *)

Section CallFacts.
Context {R : Type} `{Scalar R}.

Lemma call_unfold {A} (cls : FunctionClass A) (args : A) (w : world R) :
  Function__call__ cls args w
  = match gradX cls args w with
    | (w1, Err e) => (w1, Err e)
    | (w1, Ok g) =>
        match forward cls args (set_attr "gradX_local" g w1) with
        | (w2, Err e) => (w2, Err e)
        | (w2, Ok o) => (set_attr "output" o w2, Ok o)
        end
    end.
Proof.
  unfold Function__call__, bind, setattr, ret.
  destruct (gradX cls args w) as [w1 [g|e]]; [|reflexivity].
  destruct (forward cls args (set_attr "gradX_local" g w1)) as [w2 [o|e]];
    reflexivity.
Qed.

Lemma stub_gradX_ignores_output : gradX_ignores_output (R:=R) Function_class.
Proof. intros args w w' _. reflexivity. Qed.

Lemma Linear_gradX_ignores_output : gradX_ignores_output (R:=R) Linear_function.
Proof.
  intros x w w' Hagree. simpl. unfold Linear_gradX, getattr.
  rewrite <- (Hagree "weight") by discriminate.
  destruct (attrs w !! "weight"); reflexivity.
Qed.

End CallFacts.

Section CallCacheFacts.
Context {R : Type}.

(** What a call that succeeds has stored. *)
Lemma call_stores {A} (cls : FunctionClass A) (args : A)
      (w w1 w2 : world R) (g o : value R) :
  gradX cls args w = (w1, Ok g) ->
  forward cls args (set_attr "gradX_local" g w1) = (w2, Ok o) ->
  attrs (set_attr "gradX_local" g w1) !! "gradX_local" = Some g /\
  Function__call__ cls args w = (set_attr "output" o w2, Ok o) /\
  attrs (fst (Function__call__ cls args w)) !! "output" = Some o /\
  (forall name : string,
      name <> "output" ->
      attrs (fst (Function__call__ cls args w)) !! name = attrs w2 !! name) /\
  (w2 = set_attr "gradX_local" g w1 ->
   attrs (fst (Function__call__ cls args w)) !! "gradX_local" = Some g).
Proof.
  intros Hg Hf.
  assert (Hcall : Function__call__ cls args w = (set_attr "output" o w2, Ok o)).
  { rewrite call_unfold, Hg, Hf. reflexivity. }
  rewrite Hcall. simpl. split; [apply lookup_insert_eq|].
  split; [reflexivity|]. split; [apply lookup_insert_eq|]. split.
  - intros name Hname. apply lookup_insert_ne. congruence.
  - intros ->. simpl. rewrite lookup_insert_ne by discriminate.
    apply lookup_insert_eq.
Qed.

End CallCacheFacts.

(** C4. Calling a layer first computes [gradX] at the arguments, in the
    world the call found, and stores the result as [gradX_local]; then it
    computes [forward] at the same arguments, in the world that holds this
    [gradX_local], stores the result as [output] and returns it.  After a
    call that succeeds [output] reads back as the returned value, every
    other attribute is as [forward] left it, and [gradX_local] reads back as
    the result of [gradX] when [forward] only reads the instance.  [gradX]
    thus runs before any [forward] of the call, and for each class of the
    module its result is the same whatever the cached output is (or whether
    there is one).  On a Linear layer the call leaves the weight in
    [gradX_local] and [x · weight + bias] in [output]. *)
Theorem Function_call_protocol :
  (forall (R A : Type) (cls : FunctionClass A) (args : A) (w : world R),
      Function__call__ cls args w
      = match gradX cls args w with
        | (w1, Err e) => (w1, Err e)
        | (w1, Ok g) =>
            match forward cls args (set_attr "gradX_local" g w1) with
            | (w2, Err e) => (w2, Err e)
            | (w2, Ok o) => (set_attr "output" o w2, Ok o)
            end
        end)
  /\ (forall (R A : Type) (cls : FunctionClass A) (args : A)
             (w w1 w2 : world R) (g o : value R),
         gradX cls args w = (w1, Ok g) ->
         forward cls args (set_attr "gradX_local" g w1) = (w2, Ok o) ->
         attrs (set_attr "gradX_local" g w1) !! "gradX_local" = Some g /\
         Function__call__ cls args w = (set_attr "output" o w2, Ok o) /\
         attrs (fst (Function__call__ cls args w)) !! "output" = Some o /\
         (forall name : string,
             name <> "output" ->
             attrs (fst (Function__call__ cls args w)) !! name
             = attrs w2 !! name) /\
         (w2 = set_attr "gradX_local" g w1 ->
          attrs (fst (Function__call__ cls args w)) !! "gradX_local"
          = Some g))
  /\ (forall R : Type, gradX_ignores_output (R:=R) Function_class)
  /\ (forall R : Type, gradX_ignores_output (R:=R) (as_function Layer_class))
  /\ (forall (R : Type) (SR : Scalar R),
         gradX_ignores_output (R:=R) Linear_function)
  /\ (forall (R : Type) (sigmoid : value R -> result (value R)),
         gradX_ignores_output (Sigmoid_function sigmoid))
  /\ (forall (R : Type) (SR : Scalar R) (W b x : ndarray R) (w : world R),
         attrs w !! "weight" = Some (VArr W) ->
         attrs w !! "bias" = Some (VArr b) ->
         ncols x = nrows W -> nrows b = 1 -> ncols b = ncols W ->
         Function__call__ Linear_function (VArr x) w
         = (set_attr "output" (VArr (add_row (matmul x W) b))
              (set_attr "gradX_local" (VArr W) w),
            Ok (VArr (add_row (matmul x W) b))) /\
         attrs (fst (Function__call__ Linear_function (VArr x) w))
           !! "gradX_local" = Some (VArr W) /\
         attrs (fst (Function__call__ Linear_function (VArr x) w))
           !! "output" = Some (VArr (add_row (matmul x W) b))).
Proof.
  split; [|split; [|split; [|split; [|split; [|split]]]]].
  - intros R A cls args w. apply call_unfold.
  - intros R A cls args w w1 w2 g o. apply call_stores.
  - intros R. apply stub_gradX_ignores_output.
  - intros R. apply stub_gradX_ignores_output.
  - intros R SR. apply Linear_gradX_ignores_output.
  - intros R sigmoid args w w' _. reflexivity.
  - intros R SR W b x w Hw Hb Hin Hb1 Hbc.
    assert (Hg : gradX Linear_function (VArr x) w = (w, Ok (VArr W))).
    { simpl. unfold Linear_gradX. apply getattr_some. exact Hw. }
    assert (Hf : forward Linear_function (VArr x)
                   (set_attr "gradX_local" (VArr W) w)
                 = (set_attr "gradX_local" (VArr W) w,
                    Ok (VArr (add_row (matmul x W) b)))).
    { simpl forward. apply Linear_forward_run; try assumption.
      - simpl. rewrite lookup_insert_ne by discriminate. exact Hw.
      - simpl. rewrite lookup_insert_ne by discriminate. exact Hb. }
    destruct (call_stores _ _ _ _ _ _ _ Hg Hf) as (_ & Hcall & Ho & _ & Hgl).
    split; [exact Hcall|]. split; [apply Hgl; reflexivity | exact Ho].
Qed.

Lemma Function_call_protocol_witness :
  Function__call__ Linear_function (VArr scenario_input) scenario_world
  = (set_attr "output" (VArr (add_row (matmul scenario_input scenario_weight)
                                      scenario_bias))
       (set_attr "gradX_local" (VArr scenario_weight) scenario_world),
     Ok (VArr (add_row (matmul scenario_input scenario_weight) scenario_bias)))
  /\ attrs (fst (Function__call__ Linear_function (VArr scenario_input)
                   scenario_world)) !! "gradX_local"
     = Some (VArr scenario_weight)
  /\ attrs (fst (Function__call__ Linear_function (VArr scenario_input)
                   scenario_world)) !! "output"
     = Some (VArr (add_row (matmul scenario_input scenario_weight)
                           scenario_bias)).
Proof.
  apply (proj2 (proj2 (proj2 (proj2 (proj2 (proj2 Function_call_protocol)))))
           Z Z_Scalar scenario_weight scenario_bias scenario_input
           scenario_world);
    reflexivity.
Defined.

(** ** Layers without parameters: [Sigmoid] *)

Section InvokeFacts.
Context {R : Type}.



End InvokeFacts.




(** C10. What the protocol runs on a Sigmoid layer are the inherited stubs:
    [gradX] returns [None], so calling the layer stores [None] as
    [gradX_local] (also when [sigmoid] raises) and otherwise only evaluates
    [sigmoid]; [dx] and the functions it uses take no part in the call; and
    [backward] returns [None] for every upstream gradient. *)
Theorem Sigmoid_protocol_stubs :
  forall (R : Type) (sigmoid : value R -> result (value R))
         (x dy : value R) (w : world R),
    gradX (Sigmoid_class sigmoid) x w = (w, Ok VNone) /\
    Function__call__ (Sigmoid_class sigmoid) x w
    = match sigmoid x with
      | Ok o => (set_attr "output" o (set_attr "gradX_local" VNone w), Ok o)
      | Err e => (set_attr "gradX_local" VNone w, Err e)
      end /\
    attrs (fst (Function__call__ (Sigmoid_class sigmoid) x w)) !! "gradX_local"
    = Some VNone /\
    backward (Sigmoid_class sigmoid) dy w = (w, Ok VNone).
Proof.
  intros R sigmoid x dy w.
  assert (Hcall : Function__call__ (Sigmoid_class sigmoid) x w
                  = match sigmoid x with
                    | Ok o => (set_attr "output" o
                                 (set_attr "gradX_local" VNone w), Ok o)
                    | Err e => (set_attr "gradX_local" VNone w, Err e)
                    end).
  { rewrite call_unfold. simpl. unfold Sigmoid_forward, lift.
    destruct (sigmoid x); reflexivity. }
  split; [reflexivity|]. split; [exact Hcall|]. split; [|reflexivity].
  rewrite Hcall. destruct (sigmoid x) as [o|e]; simpl.
  - rewrite lookup_insert_ne by discriminate. apply lookup_insert_eq.
  - apply lookup_insert_eq.
Qed.

(** ** The parameters of [Linear] are only read *)

Section FrameFacts.
Context {R : Type} `{Scalar R}.

Lemma Linear_forward_world (x : value R) (w : world R) :
  fst (Linear_forward x w) = w.
Proof.
  unfold Linear_forward, bind, getattr, lift.
  destruct (attrs w !! "weight") as [wt|]; [|reflexivity].
  destruct (py_np_dot x wt) as [d|e]; [|reflexivity].
  destruct (attrs w !! "bias"); reflexivity.
Qed.

Lemma Linear_backward_world (dy : value R) (w : world R) :
  fst (Linear_backward dy w) = w.
Proof.
  destruct dy as [|d]; [reflexivity|].
  unfold Linear_backward, bind, getattr, lift.
  destruct (attrs w !! "weight") as [wt|]; [|reflexivity].
  destruct (py_T wt); reflexivity.
Qed.

Lemma Linear_gradX_world (x : value R) (w : world R) :
  fst (Linear_gradX x w) = w.
Proof. apply getattr_world. Qed.

Lemma unchanged_keeps_parameters {A} (m : M A) :
  (forall w : world R, fst (m w) = w) -> keeps_parameters m.
Proof. intros Hm w. rewrite Hm. split; reflexivity. Qed.

Lemma Linear_call_keeps_parameters (x : value R) :
  keeps_parameters (Function__call__ Linear_function x).
Proof.
  intros w. rewrite call_unfold. simpl gradX. simpl forward.
  pose proof (Linear_gradX_world x w) as Hg.
  destruct (Linear_gradX x w) as [w1 [g|e]]; simpl in Hg; subst w1;
    [|split; reflexivity].
  pose proof (Linear_forward_world x (set_attr "gradX_local" g w)) as Hf.
  destruct (Linear_forward x (set_attr "gradX_local" g w)) as [w2 [o|e]];
    simpl in Hf; subst w2; simpl;
    rewrite ?lookup_insert_ne by discriminate; split; reflexivity.
Qed.

End FrameFacts.

(** C9. [forward], [backward], [gradX], [gradW] and [update_weights] of a
    Linear layer leave the layer exactly as it was, so its weight and its
    bias in particular; calling the layer writes its two caches and leaves
    weight and bias as they were. *)
Theorem Linear_parameters_frame :
  forall (R : Type) (SR : Scalar R) (IR : InitScalar R)
         (x : value R) (args : pyargs R) (w : world R),
    (fst (forward Linear_class x w) = w /\
     fst (backward Linear_class x w) = w /\
     fst (gradX Linear_class x w) = w /\
     fst (gradW Linear_class x w) = w /\
     fst (update_weights Linear_class args w) = w) /\
    (keeps_parameters (forward Linear_class x) /\
     keeps_parameters (backward Linear_class x) /\
     keeps_parameters (gradX Linear_class x) /\
     keeps_parameters (gradW Linear_class x) /\
     keeps_parameters (update_weights Linear_class args) /\
     keeps_parameters (Function__call__ Linear_class x)).
Proof.
  intros R SR IR x args w. split.
  - repeat split.
    + apply Linear_forward_world.
    + apply Linear_backward_world.
    + apply Linear_gradX_world.
  - repeat apply conj.
    + apply unchanged_keeps_parameters, Linear_forward_world.
    + apply unchanged_keeps_parameters, Linear_backward_world.
    + apply unchanged_keeps_parameters, Linear_gradX_world.
    + apply unchanged_keeps_parameters. reflexivity.
    + apply unchanged_keeps_parameters. reflexivity.
    + apply Linear_call_keeps_parameters.
Qed.

(** ** Construction of a [Linear] layer *)

#[export] Instance Q_InitScalarLaws : InitScalarLaws Q.
Proof.
  constructor. intros n Hn. simpl.
  destruct (Z.eqb_spec n 0) as [->|Hne]; [reflexivity|].
  apply Z.eqb_neq. assert (0 < Z.sqrt n)%Z by (apply Z.sqrt_pos; lia). lia.
Qed.

Section InitFacts.
Context {R : Type} `{InitScalarLaws R}.

Lemma arr_map_shape (f : R -> R) (a : ndarray R) :
  shape (arr_map f a) = shape a.
Proof. unfold shape, nrows, arr_map. simpl. rewrite length_map. reflexivity. Qed.

Lemma arr_map_wf (f : R -> R) (a : ndarray R) : wf a -> wf (arr_map f a).
Proof.
  unfold wf, arr_map. simpl. intros Hwf.
  apply List.Forall_forall. intros row Hrow.
  apply in_map_iff in Hrow as (r & <- & Hr).
  rewrite length_map. rewrite List.Forall_forall in Hwf. apply Hwf, Hr.
Qed.

Lemma arr_map_get (f : R -> R) (a : ndarray R) (i j : nat) :
  wf a -> i < nrows a -> j < ncols a ->
  get (arr_map f a) i j = f (get a i j).
Proof.
  intros Hwf Hi Hj. unfold get, arr_map. simpl.
  rewrite (nth_map_lt _ _ _ _ []) by exact Hi.
  apply nth_map_lt. rewrite wf_row by assumption. exact Hj.
Qed.

Lemma scale_centered_shape (scale : R) (a : ndarray R) :
  shape (scale_centered scale a) = shape a.
Proof. unfold scale_centered. rewrite !arr_map_shape. reflexivity. Qed.

Lemma scale_centered_wf (scale : R) (a : ndarray R) :
  wf a -> wf (scale_centered scale a).
Proof. intros Hwf. unfold scale_centered. apply arr_map_wf, arr_map_wf, Hwf. Qed.

Lemma scale_centered_get (scale : R) (a : ndarray R) (i j : nat) :
  wf a -> i < nrows a -> j < ncols a ->
  get (scale_centered scale a) i j = s_mul scale (s_sub (get a i j) s_half).
Proof.
  intros Hwf Hi Hj. unfold scale_centered.
  rewrite arr_map_get.
  - rewrite arr_map_get by assumption. reflexivity.
  - apply arr_map_wf, Hwf.
  - change (nrows (arr_map (fun v => s_sub v s_half) a))
      with (fst (shape (arr_map (fun v => s_sub v s_half) a))).
    rewrite arr_map_shape. exact Hi.
  - exact Hj.
Qed.

(** What [init_weights] does, case by case, in the order in which the
    source can fail: the conversion of [in_dim] to a float, the domain of
    [sqrt], the division, the two calls of [np.random.rand]. *)
Lemma init_weights_cases (in_dim out_dim : Z) (w : world R) :
  Linear_init_weights (in_dim, out_dim) w
  = if negb (fits_float in_dim) then (w, Err OverflowError)
    else if (in_dim <? 0)%Z then (w, Err ValueError)
    else if (in_dim =? 0)%Z then (w, Err ZeroDivisionError)
    else if (out_dim <? 0)%Z then (w, Err ValueError)
    else
      match rand_refused in_dim out_dim with
      | Some e => (w, Err e)
      | None =>
          let r := Z.to_nat in_dim in
          let c := Z.to_nat out_dim in
          let w1 :=
            {| attrs := <["weight" := VArr (drawn_array in_dim r c (rng w))]>
                          (attrs w);
               rng := rng w + r * c |} in
          match rand_refused 1 out_dim with
          | Some e => (w1, Err e)
          | None =>
              ({| attrs :=
                    <["bias" :=
                        VArr (drawn_array in_dim 1 c (rng w + r * c))]>
                      (attrs w1);
                  rng := rng w + r * c + 1 * c |},
               Ok VNone)
          end
      end.
Proof.
  unfold Linear_init_weights, bind, lift, py_sqrt.
  destruct (fits_float in_dim); simpl negb; cbv iota; [|reflexivity].
  destruct (Z.ltb_spec in_dim 0) as [Hneg|Hnn]; [reflexivity|].
  unfold py_div. rewrite sqrt_is_zero by exact Hnn.
  destruct (Z.eqb_spec in_dim 0) as [Hz|Hnz]; [reflexivity|].
  unfold np_random_rand at 1.
  destruct (Z.ltb_spec in_dim 0) as [Hneg|_]; [lia|]. simpl orb.
  destruct (Z.ltb_spec out_dim 0) as [Hout|Hout]; [reflexivity|].
  destruct (rand_refused in_dim out_dim) as [e|]; [reflexivity|].
  unfold setattr at 1, set_attr, np_random_rand. simpl attrs. simpl rng.
  destruct (Z.ltb_spec out_dim 0) as [Hout'|_]; [lia|]. simpl orb. cbv iota.
  destruct (rand_refused 1 out_dim) as [e|]; reflexivity.
Qed.

(** The dimensions the source cannot work with: it raises before anything
    is drawn or assigned. *)
Lemma init_weights_rejects (in_dim out_dim : Z) (w : world R) :
  (in_dim <= 0)%Z \/ (out_dim < 0)%Z ->
  exists e : exn, Linear_init_weights (in_dim, out_dim) w = (w, Err e).
Proof.
  intros Hbad. rewrite init_weights_cases.
  destruct (fits_float in_dim); simpl negb; cbv iota; [|eexists; reflexivity].
  destruct (Z.ltb_spec in_dim 0); [eexists; reflexivity|].
  destruct (Z.eqb_spec in_dim 0); [eexists; reflexivity|].
  destruct (Z.ltb_spec out_dim 0); [eexists; reflexivity|].
  lia.
Qed.

(** Within the limits of the platform both parameters are drawn, scaled
    and assigned. *)
Lemma init_weights_ok (in_dim out_dim : Z) (w : world R) :
  (0 < in_dim)%Z -> (0 <= out_dim)%Z ->
  fits_float in_dim = true ->
  rand_refused in_dim out_dim = None ->
  rand_refused 1 out_dim = None ->
  let r := Z.to_nat in_dim in
  let c := Z.to_nat out_dim in
  Linear_init_weights (in_dim, out_dim) w
  = ({| attrs :=
          <["bias" := VArr (drawn_array in_dim 1 c (rng w + r * c))]>
            (<["weight" := VArr (drawn_array in_dim r c (rng w))]> (attrs w));
        rng := rng w + r * c + 1 * c |},
     Ok VNone).
Proof.
  intros Hin Hout Hfit Hw Hb r c. rewrite init_weights_cases.
  rewrite Hfit, Hw, Hb. simpl negb. cbv iota.
  destruct (Z.ltb_spec in_dim 0); [lia|].
  destruct (Z.eqb_spec in_dim 0); [lia|].
  destruct (Z.ltb_spec out_dim 0); [lia|].
  reflexivity.
Qed.

(** A run of [init_weights] that returns: what the dimensions were and
    what it left. *)
Lemma init_weights_ok_inv (in_dim out_dim : Z) (w w' : world R) (v : value R) :
  Linear_init_weights (in_dim, out_dim) w = (w', Ok v) ->
  (0 < in_dim)%Z /\ (0 <= out_dim)%Z /\
  w' = {| attrs :=
            <["bias" := VArr (drawn_array in_dim 1 (Z.to_nat out_dim)
                                (rng w + Z.to_nat in_dim * Z.to_nat out_dim))]>
              (<["weight" := VArr (drawn_array in_dim (Z.to_nat in_dim)
                                     (Z.to_nat out_dim) (rng w))]> (attrs w));
          rng := rng w + Z.to_nat in_dim * Z.to_nat out_dim
                 + 1 * Z.to_nat out_dim |}.
Proof.
  rewrite init_weights_cases.
  destruct (fits_float in_dim); simpl negb; cbv iota; [|discriminate].
  destruct (Z.ltb_spec in_dim 0); [discriminate|].
  destruct (Z.eqb_spec in_dim 0); [discriminate|].
  destruct (Z.ltb_spec out_dim 0); [discriminate|].
  destruct (rand_refused in_dim out_dim); [discriminate|].
  destruct (rand_refused 1 out_dim); [discriminate|].
  intros [= <- _]. repeat split; lia.
Qed.

(** A run of [init_weights] that raises has drawn nothing, or it has drawn
    the weight and was refused the bias. *)
Lemma init_weights_err_inv (in_dim out_dim : Z) (w w' : world R) (e : exn) :
  Linear_init_weights (in_dim, out_dim) w = (w', Err e) ->
  rng w' = rng w \/
  ((0 < in_dim)%Z /\ (0 <= out_dim)%Z /\
   rand_refused in_dim out_dim = None /\
   rand_refused 1 out_dim = Some e /\
   rng w' = rng w + Z.to_nat in_dim * Z.to_nat out_dim).
Proof.
  rewrite init_weights_cases.
  destruct (fits_float in_dim); simpl negb; cbv iota;
    [|intros [= <- _]; left; reflexivity].
  destruct (Z.ltb_spec in_dim 0); [intros [= <- _]; left; reflexivity|].
  destruct (Z.eqb_spec in_dim 0); [intros [= <- _]; left; reflexivity|].
  destruct (Z.ltb_spec out_dim 0); [intros [= <- _]; left; reflexivity|].
  destruct (rand_refused in_dim out_dim);
    [intros [= <- _]; left; reflexivity|].
  destruct (rand_refused 1 out_dim) as [e'|]; [|discriminate].
  intros [= <- <-]. right. simpl. repeat split; lia.
Qed.

(** The arrays that [init_weights] assigns. *)
Lemma drawn_array_shape (in_dim : Z) (r c start : nat) :
  shape (drawn_array in_dim r c start) = (r, c).
Proof.
  unfold drawn_array. rewrite scale_centered_shape. apply tabulate_shape.
Qed.

Lemma drawn_array_wf (in_dim : Z) (r c start : nat) :
  wf (drawn_array in_dim r c start).
Proof. unfold drawn_array. apply scale_centered_wf, tabulate_wf. Qed.

Lemma drawn_array_get (in_dim : Z) (r c start i j : nat) :
  i < r -> j < c ->
  get (drawn_array in_dim r c start) i j
  = s_mul (s_div s_one (s_sqrt in_dim))
          (s_sub (draw (start + i * c + j)) s_half).
Proof.
  intros Hi Hj. unfold drawn_array, init_scale. rewrite scale_centered_get.
  - rewrite tabulate_get by assumption. reflexivity.
  - apply tabulate_wf.
  - change (nrows ?a) with (fst (shape a)). rewrite tabulate_shape. exact Hi.
  - exact Hj.
Qed.

(** The constructor is [init_weights] on an instance without attributes. *)
Lemma Linear_new_unfold (in_dim out_dim : Z) (rng0 : nat) :
  Linear_new in_dim out_dim rng0
  = match Linear_init_weights (in_dim, out_dim) {| attrs := ∅; rng := rng0 |} with
    | (w, Ok _) => (rng w, Ok (attrs w))
    | (w, Err e) => (rng w, Err e)
    end.
Proof.
  unfold Linear_new, Linear__init__, Function__init__, bind, ret.
  change (init_weights Linear_class) with Linear_init_weights.
  destruct (Linear_init_weights (in_dim, out_dim) _) as [w [v|e]];
    reflexivity.
Qed.

End InitFacts.

(** C8, as the code has it.  Constructing a Linear layer with a non-positive
    input dimension or a negative output dimension raises, and no instance
    is produced.  An output dimension of zero is not refused for being
    zero: with a positive input dimension that a float can hold, and shapes
    (in_dim, out_dim) and (1, out_dim) that numpy builds, every
    non-negative output dimension is accepted, and the instance has a
    weight of shape (in_dim, out_dim) and a bias of shape (1, out_dim).
    Beyond those limits the construction raises as well. *)
Theorem Linear_construction :
  forall (R : Type) (SR : Scalar R) (IR : InitScalar R)
         (LR : InitScalarLaws R) (in_dim out_dim : Z) (rng0 : nat),
    ((in_dim <= 0)%Z \/ (out_dim < 0)%Z ->
     exists e : exn, snd (Linear_new in_dim out_dim rng0) = Err e) /\
    ((0 < in_dim)%Z -> (0 <= out_dim)%Z ->
     fits_float in_dim = true ->
     rand_refused in_dim out_dim = None ->
     rand_refused 1 out_dim = None ->
     exists W b : ndarray R,
       snd (Linear_new in_dim out_dim rng0)
       = Ok (<["bias" := VArr b]> (<["weight" := VArr W]> ∅)) /\
       wf W /\ shape W = (Z.to_nat in_dim, Z.to_nat out_dim) /\
       wf b /\ shape b = (1, Z.to_nat out_dim)) /\
    (fits_float in_dim = false \/
     (0 <= in_dim)%Z /\ (0 <= out_dim)%Z /\
     (rand_refused in_dim out_dim <> None \/ rand_refused 1 out_dim <> None) ->
     is_err (snd (Linear_new in_dim out_dim rng0)) = true).
Proof.
  intros R SR IR LR in_dim out_dim rng0. split; [|split].
  - intros Hbad. rewrite Linear_new_unfold.
    destruct (init_weights_rejects in_dim out_dim
                {| attrs := ∅; rng := rng0 |} Hbad) as [e He].
    rewrite He. exists e. reflexivity.
  - intros Hin Hout Hfit Hw Hb. rewrite Linear_new_unfold.
    rewrite init_weights_ok by assumption. simpl.
    eexists _, _. split; [reflexivity|].
    split; [|split; [|split]].
    + apply drawn_array_wf.
    + apply drawn_array_shape.
    + apply drawn_array_wf.
    + apply drawn_array_shape.
  - intros Hlim. rewrite Linear_new_unfold, init_weights_cases.
    destruct Hlim as [Hfit|(Hin & Hout & Href)].
    + rewrite Hfit. reflexivity.
    + destruct (fits_float in_dim); simpl negb; cbv iota; [|reflexivity].
      destruct (Z.ltb_spec in_dim 0); [reflexivity|].
      destruct (Z.eqb_spec in_dim 0); [reflexivity|].
      destruct (Z.ltb_spec out_dim 0); [reflexivity|].
      destruct (rand_refused in_dim out_dim); [reflexivity|].
      destruct (rand_refused 1 out_dim); [reflexivity|].
      destruct Href as [Href|Href]; contradiction.
Qed.

Lemma Linear_construction_witness :
  (exists e : exn, snd (Linear_new (R:=Q) 0 2 0) = Err e) /\
  (exists W b : ndarray Q,
      snd (Linear_new (R:=Q) 3 0 0)
      = Ok (<["bias" := VArr b]> (<["weight" := VArr W]> ∅)) /\
      wf W /\ shape W = (Z.to_nat 3, Z.to_nat 0) /\
      wf b /\ shape b = (1, Z.to_nat 0)) /\
  is_err (snd (Linear_new (R:=Q) (2 ^ 64) 0 0)) = true.
Proof.
  split; [|split].
  - apply (proj1 (Linear_construction Q Q_Scalar Q_InitScalar Q_InitScalarLaws
                                       0 2 0)).
    left. lia.
  - apply (proj1 (proj2 (Linear_construction Q Q_Scalar Q_InitScalar
                           Q_InitScalarLaws 3 0 0)));
      [lia | lia | reflexivity | reflexivity | reflexivity].
  - apply (proj2 (proj2 (Linear_construction Q Q_Scalar Q_InitScalar
                           Q_InitScalarLaws (2 ^ 64) 0 0))).
    right. split; [lia|]. split; [lia|]. left. discriminate.
Defined.

(** [Linear(3, 0)] is constructed: its weight has three empty rows, its bias
    one. *)
Lemma Linear_zero_out_dim_constructed :
  snd (Linear_new (R:=Q) 3 0 0)
  = Ok (<["bias" := VArr (mk_ndarray 0 [[]])]>
          (<["weight" := VArr (mk_ndarray 0 [[]; []; []])]> ∅)) /\
  is_err (snd (Linear_new (R:=Q) 3 0 0)) = false.
Proof. split; vm_compute; reflexivity. Qed.

(** ** [backward] before any call *)

Section BackwardCacheFacts.
Context {R : Type} `{Scalar R}.

Lemma Linear_backward_ignores_cache :
  backward_ignores_cache (R:=R) Linear_function.
Proof.
  intros dy w w' Hagree. simpl. destruct dy as [|d]; [reflexivity|].
  unfold Linear_backward, bind, getattr, lift.
  rewrite <- (Hagree "weight") by discriminate.
  destruct (attrs w !! "weight") as [wt|]; [|reflexivity].
  destruct (py_T wt); reflexivity.
Qed.

End BackwardCacheFacts.

(** [Linear.backward] on an instance that was never called: there is no
    cached local gradient, and the result is the downstream gradient
    [[1,1,2]], not an error. *)
Lemma Linear_backward_unforwarded :
  attrs scenario_world !! "gradX_local" = None /\
  attrs scenario_world !! "output" = None /\
  Linear_backward (VArr scenario_upstream) scenario_world
  = (scenario_world, Ok (VArr (mk_ndarray 3 [[1; 1; 2]]%Z))) /\
  is_err (snd (Linear_backward (VArr scenario_upstream) scenario_world))
  = false.
Proof. repeat split. Qed.

(** C6, as the code has it.  [backward] never reads what a call caches, so
    on an instance that has not been called it does what it does on any
    other: [Linear.backward] returns [dy · weight^T] from the current weight
    (for an upstream gradient whose width is the weight's), and the
    [backward] of [Function], [Layer] and [Sigmoid] returns [None].  No
    error reports the missing forward call. *)
Theorem backward_without_forward :
  (forall (R : Type) (SR : Scalar R),
      backward_ignores_cache (R:=R) Linear_function)
  /\ (forall R : Type, backward_ignores_cache (R:=R) Function_class)
  /\ (forall R : Type, backward_ignores_cache (R:=R) (as_function Layer_class))
  /\ (forall (R : Type) (sigmoid : value R -> result (value R)),
         backward_ignores_cache (Sigmoid_function sigmoid))
  /\ (forall (R : Type) (SR : Scalar R) (W dy : ndarray R) (w : world R),
         attrs w !! "gradX_local" = None ->
         attrs w !! "weight" = Some (VArr W) ->
         ncols dy = ncols W ->
         Linear_backward (VArr dy) w
         = (w, Ok (VArr (matmul dy (transpose W)))))
  /\ (forall (R : Type) (sigmoid : value R -> result (value R))
             (args : pyargs R) (dy : value R) (w : world R),
         attrs w !! "gradX_local" = None ->
         Function_backward args w = (w, Ok VNone) /\
         backward (Sigmoid_class sigmoid) dy w = (w, Ok VNone)).
Proof.
  split; [|split; [|split; [|split; [|split]]]].
  - intros R SR. apply Linear_backward_ignores_cache.
  - intros R args w w' _. reflexivity.
  - intros R args w w' _. reflexivity.
  - intros R sigmoid args w w' _. reflexivity.
  - intros R SR W dy w _ Hw Hout. apply Linear_backward_run; assumption.
  - intros R sigmoid args dy w _. split; reflexivity.
Qed.

Lemma backward_without_forward_witness :
  Linear_backward (VArr scenario_upstream) scenario_world
  = (scenario_world,
     Ok (VArr (matmul scenario_upstream (transpose scenario_weight)))) /\
  (Function_backward (one_arg (VArr scenario_upstream)) scenario_world
   = (scenario_world, Ok VNone) /\
   backward (Sigmoid_class (fun v => Ok v)) (VArr scenario_upstream)
            scenario_world
   = (scenario_world, Ok VNone)).
Proof.
  split.
  - apply (proj1 (proj2 (proj2 (proj2 (proj2 backward_without_forward))))
             Z Z_Scalar scenario_weight scenario_upstream scenario_world);
      reflexivity.
  - apply (proj2 (proj2 (proj2 (proj2 (proj2 backward_without_forward))))
             Z (fun v => Ok v) (one_arg (VArr scenario_upstream))
             (VArr scenario_upstream) scenario_world).
    reflexivity.
Defined.

(** ** [Linear.gradW] *)

(** [Linear.gradW] at the input [[1,2,3]] returns [None]: it is not the
    product of the transposed input with an upstream gradient (which it is
    not given). *)
Lemma Linear_gradW_returns_None :
  Linear_gradW (VArr scenario_input) scenario_world
  = (scenario_world, Ok VNone) /\
  snd (Linear_gradW (VArr scenario_input) scenario_world)
  <> Ok (VArr (matmul (transpose scenario_input) scenario_upstream)).
Proof. split; [reflexivity | discriminate]. Qed.

(** C7, as the code has it.  [gradW] of a Linear layer can be invoked with
    any input; it computes nothing: it returns [None] and leaves the layer
    as it was. *)
Theorem Linear_gradW_stub :
  forall (R : Type) (SR : Scalar R) (IR : InitScalar R)
         (x : value R) (w : world R),
    gradW Linear_class x w = (w, Ok VNone).
Proof. intros R SR IR x w. reflexivity. Qed.

(** * Further properties *)

(** ** Shapes that do not fit *)

Section MismatchFacts.
Context {R : Type} `{Scalar R}.

Lemma Linear_forward_mismatch_run (W x : ndarray R) (w : world R) :
  attrs w !! "weight" = Some (VArr W) ->
  ncols x <> nrows W ->
  Linear_forward (VArr x) w = (w, Err ValueError).
Proof.
  intros Hw Hne. unfold Linear_forward.
  rewrite (bind_ok _ _ _ _ _ (getattr_some _ _ _ Hw)).
  unfold lift at 1, py_np_dot. rewrite np_dot_mismatch by exact Hne.
  reflexivity.
Qed.

Lemma Linear_call_run (W b x : ndarray R) (w : world R) :
  attrs w !! "weight" = Some (VArr W) ->
  attrs w !! "bias" = Some (VArr b) ->
  ncols x = nrows W -> nrows b = 1 -> ncols b = ncols W ->
  Function__call__ Linear_function (VArr x) w
  = (set_attr "output" (VArr (add_row (matmul x W) b))
       (set_attr "gradX_local" (VArr W) w),
     Ok (VArr (add_row (matmul x W) b))).
Proof.
  intros Hw Hb Hin Hb1 Hbc. rewrite call_unfold.
  simpl gradX. unfold Linear_gradX. rewrite (getattr_some _ _ _ Hw).
  simpl forward. rewrite Linear_forward_run with (W := W) (b := b);
    try assumption; [reflexivity | |].
  - simpl. rewrite lookup_insert_ne by discriminate. exact Hw.
  - simpl. rewrite lookup_insert_ne by discriminate. exact Hb.
Qed.

End MismatchFacts.

(** X1. A batch whose width is not the number of rows of the weight makes
    [Linear.forward] raise [ValueError], whatever the bias is (it is not
    read); nothing is broadcast or truncated, and the layer is left as it
    was. *)
Theorem Linear_forward_width_mismatch :
  forall (R : Type) (SR : Scalar R) (W x : ndarray R) (w : world R),
    attrs w !! "weight" = Some (VArr W) ->
    ncols x <> nrows W ->
    Linear_forward (VArr x) w = (w, Err ValueError).
Proof. intros R SR W x w. apply Linear_forward_mismatch_run. Qed.

Lemma Linear_forward_width_mismatch_witness :
  Linear_forward (VArr scenario_upstream) scenario_world
  = (scenario_world, Err ValueError).
Proof.
  apply (Linear_forward_width_mismatch Z Z_Scalar scenario_weight
           scenario_upstream scenario_world).
  - reflexivity.
  - discriminate.
Defined.

(** X2. An upstream gradient whose width is not the number of columns of
    the weight makes [Linear.backward] raise [ValueError] and leaves the
    layer as it was; the shape of the last output is not consulted. *)
Theorem Linear_backward_width_mismatch :
  forall (R : Type) (SR : Scalar R) (W dy : ndarray R) (w : world R),
    attrs w !! "weight" = Some (VArr W) ->
    ncols dy <> ncols W ->
    Linear_backward (VArr dy) w = (w, Err ValueError).
Proof.
  intros R SR W dy w Hw Hne. unfold Linear_backward.
  rewrite (bind_ok _ _ _ _ _ (getattr_some _ _ _ Hw)).
  unfold lift, py_T, bind.
  rewrite np_dot_mismatch by (rewrite transpose_nrows; exact Hne).
  reflexivity.
Qed.

Lemma Linear_backward_width_mismatch_witness :
  Linear_backward (VArr scenario_input) scenario_world
  = (scenario_world, Err ValueError).
Proof.
  apply (Linear_backward_width_mismatch Z Z_Scalar scenario_weight
           scenario_input scenario_world).
  - reflexivity.
  - discriminate.
Defined.

(** X3. Calling a Linear layer on a batch of the wrong width raises
    [ValueError] after the local gradient has been cached: the weight is
    stored as [gradX_local], while [output] keeps whatever an earlier call
    left there (or stays absent). *)
Theorem Linear_call_width_mismatch :
  forall (R : Type) (SR : Scalar R) (W x : ndarray R) (w : world R),
    attrs w !! "weight" = Some (VArr W) ->
    ncols x <> nrows W ->
    Function__call__ Linear_function (VArr x) w
    = (set_attr "gradX_local" (VArr W) w, Err ValueError) /\
    attrs (fst (Function__call__ Linear_function (VArr x) w)) !! "gradX_local"
    = Some (VArr W) /\
    attrs (fst (Function__call__ Linear_function (VArr x) w)) !! "output"
    = attrs w !! "output".
Proof.
  intros R SR W x w Hw Hne.
  assert (Hcall : Function__call__ Linear_function (VArr x) w
                  = (set_attr "gradX_local" (VArr W) w, Err ValueError)).
  { rewrite call_unfold. simpl gradX. unfold Linear_gradX.
    rewrite (getattr_some _ _ _ Hw). simpl forward.
    rewrite Linear_forward_mismatch_run with (W := W);
      [reflexivity | | exact Hne].
    simpl. rewrite lookup_insert_ne by discriminate. exact Hw. }
  rewrite Hcall. split; [reflexivity|]. simpl. split.
  - apply lookup_insert_eq.
  - apply lookup_insert_ne. discriminate.
Qed.

Lemma Linear_call_width_mismatch_witness :
  Function__call__ Linear_function (VArr scenario_upstream) scenario_world
  = (set_attr "gradX_local" (VArr scenario_weight) scenario_world,
     Err ValueError) /\
  attrs (fst (Function__call__ Linear_function (VArr scenario_upstream)
                scenario_world)) !! "gradX_local"
  = Some (VArr scenario_weight) /\
  attrs (fst (Function__call__ Linear_function (VArr scenario_upstream)
                scenario_world)) !! "output"
  = attrs scenario_world !! "output".
Proof.
  apply (Linear_call_width_mismatch Z Z_Scalar scenario_weight
           scenario_upstream scenario_world).
  - reflexivity.
  - discriminate.
Defined.

(** ** What [init_weights] draws *)

Section NewFacts.
Context {R : Type} `{InitScalarLaws R}.

(** A construction that returns: the dimensions, the instance and the
    state of the generator. *)
Lemma Linear_new_returns (in_dim out_dim : Z) (rng0 n : nat)
      (at_ : gmap string (value R)) :
  Linear_new in_dim out_dim rng0 = (n, Ok at_) ->
  (0 < in_dim)%Z /\ (0 <= out_dim)%Z /\
  at_ = <["bias" := VArr (drawn_array in_dim 1 (Z.to_nat out_dim)
                            (rng0 + Z.to_nat in_dim * Z.to_nat out_dim))]>
          (<["weight" := VArr (drawn_array in_dim (Z.to_nat in_dim)
                                 (Z.to_nat out_dim) rng0)]> ∅) /\
  n = rng0 + Z.to_nat in_dim * Z.to_nat out_dim + 1 * Z.to_nat out_dim.
Proof.
  rewrite Linear_new_unfold.
  destruct (Linear_init_weights (in_dim, out_dim) {| attrs := ∅; rng := rng0 |})
    as [w' [v|e]] eqn:Hrun; [|discriminate].
  apply init_weights_ok_inv in Hrun as (Hin & Hout & ->).
  simpl. intros [= <- <-]. repeat split; assumption.
Qed.

End NewFacts.

(** X4. A Linear layer that the constructor returns holds, at entry (i, j)
    of its weight, [scale * (u - 0.5)] where [scale = 1 / sqrt(in_dim)] and
    [u] is the generator's number [i * out_dim + j] counted from the
    construction; the bias is drawn after the whole weight, with the same
    scale: its entry j comes from the number [in_dim * out_dim + j]. *)
Theorem Linear_new_entries :
  forall (R : Type) (SR : Scalar R) (IR : InitScalar R)
         (LR : InitScalarLaws R) (in_dim out_dim : Z) (rng0 n : nat)
         (at_ : gmap string (value R)),
    Linear_new in_dim out_dim rng0 = (n, Ok at_) ->
    exists W b : ndarray R,
      at_ = <["bias" := VArr b]> (<["weight" := VArr W]> ∅) /\
      (forall i j, i < Z.to_nat in_dim -> j < Z.to_nat out_dim ->
         get W i j
         = s_mul (s_div s_one (s_sqrt in_dim))
                 (s_sub (draw (rng0 + i * Z.to_nat out_dim + j)) s_half)) /\
      (forall j, j < Z.to_nat out_dim ->
         get b 0 j
         = s_mul (s_div s_one (s_sqrt in_dim))
                 (s_sub (draw (rng0 + Z.to_nat in_dim * Z.to_nat out_dim + j))
                        s_half)).
Proof.
  intros R SR IR LR in_dim out_dim rng0 n at_ Hnew.
  destruct (Linear_new_returns _ _ _ _ _ Hnew) as (Hin & Hout & -> & _).
  eexists _, _. split; [reflexivity|]. split.
  - intros i j Hi Hj. apply drawn_array_get; assumption.
  - intros j Hj. rewrite drawn_array_get by (try exact Hj; lia).
    do 3 f_equal. lia.
Qed.

Lemma Linear_new_entries_witness :
  exists W b : ndarray Q,
    match snd (Linear_new (R:=Q) 3 2 0) with Ok a => a | Err _ => ∅ end
    = <["bias" := VArr b]> (<["weight" := VArr W]> ∅) /\
    (forall i j, i < Z.to_nat 3 -> j < Z.to_nat 2 ->
       get W i j
       = s_mul (s_div s_one (s_sqrt 3))
               (s_sub (draw (0 + i * Z.to_nat 2 + j)) s_half)) /\
    (forall j, j < Z.to_nat 2 ->
       get b 0 j
       = s_mul (s_div s_one (s_sqrt 3))
               (s_sub (draw (0 + Z.to_nat 3 * Z.to_nat 2 + j)) s_half)).
Proof.
  apply (Linear_new_entries Q Q_Scalar Q_InitScalar Q_InitScalarLaws 3 2 0 8).
  vm_compute. reflexivity.
Defined.

(** X5. A Linear construction that returns has taken exactly
    [in_dim * out_dim + out_dim] numbers from the process-wide generator.
    One that raises has taken none, with one exception: when numpy builds
    the weight and then refuses the bias, the [in_dim * out_dim] numbers of
    the weight are gone.  A construction refused for the sign of a dimension
    takes none. *)
Theorem Linear_new_generator :
  forall (R : Type) (SR : Scalar R) (IR : InitScalar R)
         (LR : InitScalarLaws R) (in_dim out_dim : Z) (rng0 n : nat),
    (forall at_ : gmap string (value R),
        Linear_new in_dim out_dim rng0 = (n, Ok at_) ->
        n = rng0 + Z.to_nat in_dim * Z.to_nat out_dim + Z.to_nat out_dim) /\
    (forall e : exn,
        Linear_new in_dim out_dim rng0 = (n, Err e) ->
        n = rng0 \/
        (rand_refused in_dim out_dim = None /\
         rand_refused 1 out_dim = Some e /\
         n = rng0 + Z.to_nat in_dim * Z.to_nat out_dim)) /\
    ((in_dim <= 0)%Z \/ (out_dim < 0)%Z ->
     fst (Linear_new in_dim out_dim rng0) = rng0).
Proof.
  intros R SR IR LR in_dim out_dim rng0 n. split; [|split].
  - intros at_ Hnew.
    destruct (Linear_new_returns _ _ _ _ _ Hnew) as (_ & _ & _ & ->). lia.
  - intros e. rewrite Linear_new_unfold.
    destruct (Linear_init_weights (in_dim, out_dim)
                {| attrs := ∅; rng := rng0 |}) as [w' [v|e']] eqn:Hrun;
      [discriminate|].
    intros [= <- <-].
    destruct (init_weights_err_inv _ _ _ _ _ Hrun)
      as [Hsame|(_ & _ & Hw & Hb & Hn)].
    + left. exact Hsame.
    + right. repeat split; assumption.
  - intros Hbad. rewrite Linear_new_unfold.
    destruct (init_weights_rejects in_dim out_dim
                {| attrs := ∅; rng := rng0 |} Hbad) as [e He].
    rewrite He. reflexivity.
Qed.

Lemma Linear_new_generator_witness :
  15 = 7 + Z.to_nat 3 * Z.to_nat 2 + Z.to_nat 2 /\
  (7 = 7 \/
   (rand_refused (R:=Q) 3 (-1) = None /\
    rand_refused (R:=Q) 1 (-1) = Some ValueError /\
    7 = 7 + Z.to_nat 3 * Z.to_nat (-1))) /\
  fst (Linear_new (R:=Q) 3 (-1) 7) = 7.
Proof.
  split; [|split].
  - apply (proj1 (Linear_new_generator Q Q_Scalar Q_InitScalar
                    Q_InitScalarLaws 3 2 7 15)
                 (match snd (Linear_new (R:=Q) 3 2 7) with
                  | Ok a => a
                  | Err _ => ∅
                  end)).
    vm_compute. reflexivity.
  - apply (proj1 (proj2 (Linear_new_generator Q Q_Scalar Q_InitScalar
                           Q_InitScalarLaws 3 (-1) 7 7)) ValueError).
    vm_compute. reflexivity.
  - apply (proj2 (proj2 (Linear_new_generator Q Q_Scalar Q_InitScalar
                           Q_InitScalarLaws 3 (-1) 7 7))).
    right. lia.
Defined.

(** ** From construction to the backward pass *)

Section LifeCycleFacts.
Context {R : Type} `{InitScalarLaws R}.

(** A construction that returns has assigned both parameters, with the
    shapes the dimensions ask for. *)
Lemma Linear_new_ok_inv (in_dim out_dim : Z) (rng0 n : nat)
      (at_ : gmap string (value R)) :
  Linear_new in_dim out_dim rng0 = (n, Ok at_) ->
  exists W b : ndarray R,
    at_ = <["bias" := VArr b]> (<["weight" := VArr W]> ∅) /\
    shape W = (Z.to_nat in_dim, Z.to_nat out_dim) /\
    shape b = (1, Z.to_nat out_dim).
Proof.
  intros Hnew.
  destruct (Linear_new_returns _ _ _ _ _ Hnew) as (_ & _ & -> & _).
  eexists _, _. split; [reflexivity|].
  rewrite !drawn_array_shape. split; reflexivity.
Qed.

End LifeCycleFacts.

(** X6. Every Linear layer that the constructor returns can be called on
    every batch of width [in_dim]: the call returns an array of shape
    (batch, out_dim), caches it as [output] and the weight as [gradX_local];
    a following [backward] on an upstream gradient of shape
    (batch, out_dim) returns [dy · gradX_local^T], of shape
    (batch, in_dim), and changes nothing. *)
Theorem Linear_new_call_backward :
  forall (R : Type) (SR : Scalar R) (IR : InitScalar R)
         (LR : InitScalarLaws R) (in_dim out_dim : Z) (rng0 n : nat)
         (at_ : gmap string (value R)) (x dy : ndarray R) (batch : nat),
    Linear_new in_dim out_dim rng0 = (n, Ok at_) ->
    shape x = (batch, Z.to_nat in_dim) ->
    shape dy = (batch, Z.to_nat out_dim) ->
    exists (W y dx : ndarray R) (w' : world R),
      Function__call__ Linear_class (VArr x) {| attrs := at_; rng := n |}
      = (w', Ok (VArr y)) /\
      shape y = (batch, Z.to_nat out_dim) /\
      attrs w' !! "output" = Some (VArr y) /\
      attrs w' !! "gradX_local" = Some (VArr W) /\
      attrs w' !! "weight" = Some (VArr W) /\
      backward Linear_class (VArr dy) w' = (w', Ok (VArr dx)) /\
      np_dot dy (transpose W) = Ok dx /\
      shape dx = (batch, Z.to_nat in_dim).
Proof.
  intros R SR IR LR in_dim out_dim rng0 n at_ x dy batch Hnew Hx Hdy.
  destruct (Linear_new_ok_inv _ _ _ _ _ Hnew) as (W & b & -> & HW & Hb).
  injection HW as HWr HWc. injection Hb as Hbr Hbc.
  injection Hx as Hxr Hxc. injection Hdy as Hdr Hdc.
  exists W, (add_row (matmul x W) b), (matmul dy (transpose W)).
  eexists. split.
  - apply Linear_call_run with (W := W) (b := b); simpl; try congruence.
    + rewrite lookup_insert_ne by discriminate. apply lookup_insert_eq.
    + apply lookup_insert_eq.
  - split; [|split; [|split; [|split; [|split; [|split]]]]].
    + unfold add_row. rewrite tabulate_shape.
      change (nrows (matmul x W)) with (fst (shape (matmul x W))).
      rewrite matmul_shape. simpl. congruence.
    + simpl. apply lookup_insert_eq.
    + simpl. rewrite lookup_insert_ne by discriminate. apply lookup_insert_eq.
    + simpl. rewrite !lookup_insert_ne by discriminate. apply lookup_insert_eq.
    + apply Linear_backward_run; [|congruence].
      simpl. rewrite !lookup_insert_ne by discriminate. apply lookup_insert_eq.
    + apply np_dot_ok. rewrite transpose_nrows. congruence.
    + rewrite matmul_shape. change (ncols (transpose W)) with (nrows W).
      congruence.
Qed.

Lemma Linear_new_call_backward_witness :
  exists (W y dx : ndarray Q) (w' : world Q),
    Function__call__ Linear_class (VArr (mk_ndarray 3 [[1; 2; 3]]%Q))
      {| attrs := match snd (Linear_new (R:=Q) 3 2 0) with
                  | Ok a => a
                  | Err _ => ∅
                  end;
         rng := 8 |}
    = (w', Ok (VArr y)) /\
    shape y = (1, Z.to_nat 2) /\
    attrs w' !! "output" = Some (VArr y) /\
    attrs w' !! "gradX_local" = Some (VArr W) /\
    attrs w' !! "weight" = Some (VArr W) /\
    backward Linear_class (VArr (mk_ndarray 2 [[1; 1]]%Q)) w'
    = (w', Ok (VArr dx)) /\
    np_dot (mk_ndarray 2 [[1; 1]]%Q) (transpose W) = Ok dx /\
    shape dx = (1, Z.to_nat 3).
Proof.
  apply (Linear_new_call_backward Q Q_Scalar Q_InitScalar Q_InitScalarLaws
           3 2 0 8); vm_compute; reflexivity.
Defined.

(** ** The cache holds the latest call only *)

Section CacheFacts.
Context {R : Type} `{Scalar R}.

Lemma agree_off_cache_refl (w : world R) : agree_off_cache w w.
Proof. intros name _ _. reflexivity. Qed.

Lemma agree_off_cache_set_gradX (g : value R) (w w0 : world R) :
  agree_off_cache w w0 ->
  agree_off_cache (set_attr "gradX_local" g w) (set_attr "gradX_local" g w0).
Proof.
  intros Hagree name Ho Hg. simpl.
  rewrite !lookup_insert_ne by congruence. apply Hagree; assumption.
Qed.

(** Writing both cached attributes hides every difference in them. *)
Lemma set_cache_agree (g o : value R) (w w0 : world R) :
  agree_off_cache w w0 -> rng w = rng w0 ->
  set_attr "output" o (set_attr "gradX_local" g w0)
  = set_attr "output" o (set_attr "gradX_local" g w).
Proof.
  intros Hagree Hrng. unfold set_attr. simpl. rewrite Hrng. f_equal.
  apply map_eq. intros name.
  destruct (decide (name = "output")) as [->|Ho].
  - rewrite !lookup_insert_eq. reflexivity.
  - rewrite !(lookup_insert_ne _ "output") by congruence.
    destruct (decide (name = "gradX_local")) as [->|Hg].
    + rewrite !lookup_insert_eq. reflexivity.
    + rewrite !lookup_insert_ne by congruence. symmetry.
      apply Hagree; assumption.
Qed.

(** A call changes nothing but the two cached attributes. *)
Lemma call_agree {A} (cls : FunctionClass A) (a : A) (w : world R) :
  cache_oblivious cls ->
  agree_off_cache w (fst (Function__call__ cls a w)) /\
  rng w = rng (fst (Function__call__ cls a w)).
Proof.
  intros (Hg & Hf & _). rewrite call_unfold.
  pose proof (Hg a w) as Hgw.
  destruct (gradX cls a w) as [w1 [g|e]]; simpl in Hgw; subst w1.
  2:{ split; [apply agree_off_cache_refl | reflexivity]. }
  pose proof (Hf a (set_attr "gradX_local" g w)) as Hfw.
  destruct (forward cls a (set_attr "gradX_local" g w)) as [w2 [o|e]];
    simpl in Hfw; subst w2; simpl; (split; [|reflexivity]);
    intros name Ho Hgl; simpl;
    rewrite ?lookup_insert_ne by congruence; reflexivity.
Qed.

(** A call that succeeds ends in the same world from any two worlds that
    differ in the cache only. *)
Lemma call_from_agreeing {A} (cls : FunctionClass A) (a : A) (w w0 : world R) :
  cache_oblivious cls ->
  agree_off_cache w w0 -> rng w = rng w0 ->
  is_err (snd (Function__call__ cls a w)) = false ->
  Function__call__ cls a w0 = Function__call__ cls a w.
Proof.
  intros (Hg & Hf & Hres) Hagree Hrng Hok.
  rewrite call_unfold in Hok. rewrite !call_unfold.
  pose proof (Hg a w) as Hgw. pose proof (Hg a w0) as Hgw0.
  pose proof (proj1 (Hres a w w0 Hagree)) as Hgr.
  destruct (gradX cls a w) as [w1 [g|e]]; simpl in Hgw; subst w1;
    [|discriminate Hok].
  destruct (gradX cls a w0) as [w1 r0]; simpl in Hgw0, Hgr; subst w1 r0.
  pose proof (Hf a (set_attr "gradX_local" g w)) as Hfw.
  pose proof (Hf a (set_attr "gradX_local" g w0)) as Hfw0.
  pose proof (proj2 (Hres a _ _ (agree_off_cache_set_gradX g w w0 Hagree)))
    as Hfr.
  destruct (forward cls a (set_attr "gradX_local" g w)) as [w2 [o|e]];
    simpl in Hfw; subst w2; [|discriminate Hok].
  destruct (forward cls a (set_attr "gradX_local" g w0)) as [w2 r0];
    simpl in Hfw0, Hfr; subst w2 r0.
  rewrite (set_cache_agree g o w w0) by assumption. reflexivity.
Qed.

Lemma Linear_cache_oblivious : cache_oblivious (R:=R) Linear_function.
Proof.
  split; [|split].
  - intros x w. apply Linear_gradX_world.
  - intros x w. apply Linear_forward_world.
  - intros x w w' Hagree. simpl. split.
    + unfold Linear_gradX, getattr.
      rewrite <- (Hagree "weight") by discriminate.
      destruct (attrs w !! "weight"); reflexivity.
    + unfold Linear_forward, bind, getattr, lift.
      rewrite <- (Hagree "weight") by discriminate.
      destruct (attrs w !! "weight") as [wt|]; [|reflexivity].
      destruct (py_np_dot x wt) as [d|e]; [|reflexivity].
      rewrite <- (Hagree "bias") by discriminate.
      destruct (attrs w !! "bias"); reflexivity.
Qed.

Lemma Sigmoid_cache_oblivious (sigmoid : value R -> result (value R)) :
  cache_oblivious (Sigmoid_function sigmoid).
Proof.
  split; [|split].
  - intros x w. reflexivity.
  - intros x w. reflexivity.
  - intros x w w' _. split; reflexivity.
Qed.

End CacheFacts.

(** X7. The two cached attributes hold the latest call only.  For a class
    whose [gradX] and [forward] read the instance without changing it and
    read nothing of the cache, a call that succeeds leaves the same instance
    and returns the same output whether or not another call, successful or
    not, came before it.  [Linear] and [Sigmoid] are such classes. *)
Theorem call_overwrites_cache :
  (forall (R A : Type) (cls : FunctionClass A) (a1 a2 : A) (w : world R),
      cache_oblivious cls ->
      is_err (snd (Function__call__ cls a2 w)) = false ->
      Function__call__ cls a2 (fst (Function__call__ cls a1 w))
      = Function__call__ cls a2 w)
  /\ (forall (R : Type) (SR : Scalar R),
         cache_oblivious (R:=R) Linear_function)
  /\ (forall (R : Type) (sigmoid : value R -> result (value R)),
         cache_oblivious (Sigmoid_function sigmoid)).
Proof.
  split; [|split].
  - intros R A cls a1 a2 w Hobl Hok.
    destruct (call_agree cls a1 w Hobl) as [Hagree Hrng].
    apply call_from_agreeing; assumption.
  - intros R SR. apply Linear_cache_oblivious.
  - intros R sigmoid. apply Sigmoid_cache_oblivious.
Qed.

Lemma call_overwrites_cache_witness :
  Function__call__ Linear_function (VArr scenario_input)
    (fst (Function__call__ Linear_function (VArr scenario_upstream)
            scenario_world))
  = Function__call__ Linear_function (VArr scenario_input) scenario_world.
Proof.
  apply (proj1 call_overwrites_cache Z (value Z) Linear_function
           (VArr scenario_upstream) (VArr scenario_input) scenario_world).
  - apply (proj1 (proj2 call_overwrites_cache) Z Z_Scalar).
  - reflexivity.
Defined.

(** ** The examples of a batch are independent *)

Section RowFacts.
Context {R : Type} `{Scalar R}.

Lemma matmul_row_batch (a b : ndarray R) (i : nat) :
  i < nrows a -> matmul (row_batch a i) b = row_batch (matmul a b) i.
Proof.
  intros Hi. unfold matmul, row_batch. simpl. f_equal. f_equal.
  rewrite (nth_map_lt _ _ _ _ []) by exact Hi. reflexivity.
Qed.

Lemma row_batch_get (a : ndarray R) (i j : nat) :
  get (row_batch a i) 0 j = get a i j.
Proof. reflexivity. Qed.

Lemma add_row_row_batch (a b : ndarray R) (i : nat) :
  i < nrows a -> add_row (row_batch a i) b = row_batch (add_row a b) i.
Proof.
  intros Hi. unfold add_row, row_batch, tabulate. simpl. f_equal. f_equal.
  rewrite (nth_map_lt _ _ _ _ 0) by (rewrite length_seq; exact Hi).
  rewrite seq_nth by exact Hi. reflexivity.
Qed.

End RowFacts.

(** X8. [Linear.forward] treats the rows of a batch independently: the
    output for the single example [x[i:i+1]] is row [i] of the output for
    the whole batch. *)
Theorem Linear_forward_rowwise :
  forall (R : Type) (SR : Scalar R) (W b x : ndarray R) (w : world R)
         (i : nat),
    attrs w !! "weight" = Some (VArr W) ->
    attrs w !! "bias" = Some (VArr b) ->
    ncols x = nrows W -> nrows b = 1 -> ncols b = ncols W ->
    i < nrows x ->
    exists y : ndarray R,
      Linear_forward (VArr x) w = (w, Ok (VArr y)) /\
      Linear_forward (VArr (row_batch x i)) w
      = (w, Ok (VArr (row_batch y i))).
Proof.
  intros R SR W b x w i Hw Hb Hin Hb1 Hbc Hi.
  exists (add_row (matmul x W) b). split.
  - apply Linear_forward_run; assumption.
  - rewrite Linear_forward_run with (W := W) (b := b); try assumption.
    rewrite matmul_row_batch by exact Hi.
    rewrite add_row_row_batch; [reflexivity|].
    change (nrows (matmul x W)) with (fst (shape (matmul x W))).
    rewrite matmul_shape. exact Hi.
Qed.

Lemma Linear_forward_rowwise_witness :
  exists y : ndarray Z,
    Linear_forward (VArr (mk_ndarray 3 [[1; 2; 3]; [4; 5; 6]]%Z))
                   scenario_world
    = (scenario_world, Ok (VArr y)) /\
    Linear_forward
      (VArr (row_batch (mk_ndarray 3 [[1; 2; 3]; [4; 5; 6]]%Z) 1))
      scenario_world
    = (scenario_world, Ok (VArr (row_batch y 1))).
Proof.
  apply (Linear_forward_rowwise Z Z_Scalar scenario_weight scenario_bias
           (mk_ndarray 3 [[1; 2; 3]; [4; 5; 6]]%Z) scenario_world 1);
    try reflexivity.
  unfold nrows. simpl. lia.
Defined.

(** X9. [Linear.backward] treats the rows of the upstream gradient
    independently: the downstream gradient for [dy[i:i+1]] alone is row [i]
    of the downstream gradient for all of [dy]. *)
Theorem Linear_backward_rowwise :
  forall (R : Type) (SR : Scalar R) (W dy : ndarray R) (w : world R)
         (i : nat),
    attrs w !! "weight" = Some (VArr W) ->
    ncols dy = ncols W ->
    i < nrows dy ->
    exists dx : ndarray R,
      Linear_backward (VArr dy) w = (w, Ok (VArr dx)) /\
      Linear_backward (VArr (row_batch dy i)) w
      = (w, Ok (VArr (row_batch dx i))).
Proof.
  intros R SR W dy w i Hw Hout Hi.
  exists (matmul dy (transpose W)). split.
  - apply Linear_backward_run; assumption.
  - rewrite Linear_backward_run with (W := W); try assumption.
    rewrite matmul_row_batch by exact Hi. reflexivity.
Qed.

Lemma Linear_backward_rowwise_witness :
  exists dx : ndarray Z,
    Linear_backward (VArr (mk_ndarray 2 [[1; 1]; [2; 0]]%Z)) scenario_world
    = (scenario_world, Ok (VArr dx)) /\
    Linear_backward (VArr (row_batch (mk_ndarray 2 [[1; 1]; [2; 0]]%Z) 0))
                    scenario_world
    = (scenario_world, Ok (VArr (row_batch dx 0))).
Proof.
  apply (Linear_backward_rowwise Z Z_Scalar scenario_weight
           (mk_ndarray 2 [[1; 1]; [2; 0]]%Z) scenario_world 0);
    try reflexivity.
  unfold nrows. simpl. lia.
Defined.

(** ** The gradients, in exact arithmetic *)

#[export] Instance Z_ExactScalar : ExactScalar Z.
Proof. constructor; simpl; intros; lia. Qed.

Section ExactFacts.
Context {R : Type} `{ExactScalar R}.

Lemma add_zero_r (a : R) : s_add a s_zero = a.
Proof. rewrite add_comm. apply add_zero_l. Qed.

Lemma mul_add_distr_r (a b c : R) :
  s_mul (s_add a b) c = s_add (s_mul a c) (s_mul b c).
Proof. rewrite !(mul_comm _ c). apply mul_add_distr_l. Qed.

Lemma add_swap (a b c : R) : s_add (s_add a b) c = s_add (s_add a c) b.
Proof. rewrite <- !add_assoc. f_equal. apply add_comm. Qed.

Lemma add_interchange (a b c d : R) :
  s_add (s_add a b) (s_add c d) = s_add (s_add a c) (s_add b d).
Proof.
  rewrite <- !add_assoc. f_equal.
  rewrite !add_assoc. f_equal. apply add_comm.
Qed.

Lemma isum_add (f g : nat -> R) (n : nat) :
  isum (fun k => s_add (f k) (g k)) n = s_add (isum f n) (isum g n).
Proof.
  induction n as [|n IH]; simpl.
  - symmetry. apply add_zero_l.
  - rewrite IH. apply add_interchange.
Qed.

Lemma isum_zero (n : nat) : isum (fun _ => s_zero : R) n = s_zero.
Proof.
  induction n as [|n IH]; simpl; [reflexivity|].
  rewrite IH. apply add_zero_l.
Qed.

Lemma isum_mul_l (a : R) (f : nat -> R) (n : nat) :
  s_mul a (isum f n) = isum (fun k => s_mul a (f k)) n.
Proof.
  induction n as [|n IH]; simpl.
  - apply mul_zero_r.
  - rewrite mul_add_distr_l, IH. reflexivity.
Qed.

Lemma isum_mul_r (a : R) (f : nat -> R) (n : nat) :
  s_mul (isum f n) a = isum (fun k => s_mul (f k) a) n.
Proof.
  rewrite mul_comm, isum_mul_l. apply isum_ext. intros k _. apply mul_comm.
Qed.

(** The order of two nested sums does not matter. *)
Lemma isum_exchange (F : nat -> nat -> R) (m n : nat) :
  isum (fun j => isum (fun k => F j k) n) m
  = isum (fun k => isum (fun j => F j k) m) n.
Proof.
  induction m as [|m IH]; simpl.
  - symmetry. apply isum_zero.
  - rewrite IH. symmetry. apply isum_add.
Qed.

(** [a + b] for two arrays of one shape. *)
Lemma np_add_same_shape (a b : ndarray R) :
  shape b = shape a ->
  np_add a b
  = Ok (tabulate (nrows a) (ncols a)
                 (fun i j => s_add (get a i j) (get b i j))).
Proof.
  intros Hs. injection Hs as Hr Hc. unfold np_add.
  rewrite Hr, Hc, !bdim_same. f_equal. apply tabulate_ext.
  intros i j Hi Hj. rewrite !bidx_lt by assumption. reflexivity.
Qed.

Lemma add_row_get (a b : ndarray R) (i j : nat) :
  i < nrows a -> j < ncols a ->
  get (add_row a b) i j = s_add (get a i j) (get b 0 j).
Proof.
  intros Hi Hj. unfold add_row. rewrite tabulate_get by assumption.
  reflexivity.
Qed.

End ExactFacts.

(** X10. In exact arithmetic [Linear.forward] is affine, and what [gradX]
    returns is its Jacobian: moving the batch from [x] to [x + h] moves the
    output from [forward(x)] to [forward(x) + h · gradX(x)], entry by
    entry. *)
Theorem Linear_forward_increment :
  forall (R : Type) (SR : Scalar R) (ER : ExactScalar R)
         (W b x h : ndarray R) (w : world R),
    attrs w !! "weight" = Some (VArr W) ->
    attrs w !! "bias" = Some (VArr b) ->
    nrows b = 1 -> ncols b = ncols W ->
    wf x -> ncols x = nrows W -> wf h -> shape h = shape x ->
    exists xh y y' : ndarray R,
      np_add x h = Ok xh /\
      Linear_gradX (VArr x) w = (w, Ok (VArr W)) /\
      Linear_forward (VArr x) w = (w, Ok (VArr y)) /\
      Linear_forward (VArr xh) w = (w, Ok (VArr y')) /\
      forall i j, i < nrows x -> j < ncols W ->
        get y' i j
        = s_add (get y i j)
                (isum (fun k => s_mul (get h i k) (get W k j)) (nrows W)).
Proof.
  intros R SR ER W b x h w Hw Hb Hb1 Hbc Hwfx Hin Hwfh Hs.
  set (xh := tabulate (nrows x) (ncols x)
                      (fun i j => s_add (get x i j) (get h i j))).
  assert (Hxhr : nrows xh = nrows x).
  { change (nrows xh) with (fst (shape xh)). unfold xh.
    rewrite tabulate_shape. reflexivity. }
  assert (Hxhc : ncols xh = ncols x) by reflexivity.
  exists xh, (add_row (matmul x W) b), (add_row (matmul xh W) b).
  split; [apply np_add_same_shape; exact Hs|].
  split; [unfold Linear_gradX; apply getattr_some; exact Hw|].
  split; [apply Linear_forward_run; assumption|].
  split; [apply Linear_forward_run; try assumption; congruence|].
  intros i j Hi Hj.
  assert (Hm : forall a : ndarray R, nrows (matmul a W) = nrows a).
  { intros a. change (nrows (matmul a W)) with (fst (shape (matmul a W))).
    rewrite matmul_shape. reflexivity. }
  rewrite !add_row_get by (rewrite ?Hm; try exact Hj; lia).
  rewrite !matmul_get by (try assumption; try apply tabulate_wf; lia).
  rewrite Hxhc, Hin.
  rewrite (isum_ext _ (fun k => s_add (s_mul (get x i k) (get W k j))
                                      (s_mul (get h i k) (get W k j)))).
  - rewrite isum_add. apply add_swap.
  - intros k Hk. unfold xh. rewrite tabulate_get by lia.
    apply mul_add_distr_r.
Qed.

Lemma Linear_forward_increment_witness :
  exists xh y y' : ndarray Z,
    np_add scenario_input (mk_ndarray 3 [[1; 0; 2]]%Z) = Ok xh /\
    Linear_gradX (VArr scenario_input) scenario_world
    = (scenario_world, Ok (VArr scenario_weight)) /\
    Linear_forward (VArr scenario_input) scenario_world
    = (scenario_world, Ok (VArr y)) /\
    Linear_forward (VArr xh) scenario_world = (scenario_world, Ok (VArr y')) /\
    forall i j, i < nrows scenario_input -> j < ncols scenario_weight ->
      get y' i j
      = s_add (get y i j)
              (isum (fun k => s_mul (get (mk_ndarray 3 [[1; 0; 2]]%Z) i k)
                                    (get scenario_weight k j))
                    (nrows scenario_weight)).
Proof.
  apply (Linear_forward_increment Z Z_Scalar Z_ExactScalar scenario_weight
           scenario_bias scenario_input (mk_ndarray 3 [[1; 0; 2]]%Z)
           scenario_world);
    try reflexivity; repeat constructor.
Defined.

(** X11. In exact arithmetic [Linear.backward] is the adjoint of that
    Jacobian: for every example i and every direction [h], pairing
    [backward(dy)] with [h] gives what pairing [dy] with [h · weight] gives.
    So [backward(dy)] is the gradient, with respect to the input, of the
    output paired with [dy]. *)
Theorem Linear_backward_adjoint :
  forall (R : Type) (SR : Scalar R) (ER : ExactScalar R)
         (W dy h : ndarray R) (w : world R),
    attrs w !! "weight" = Some (VArr W) ->
    wf dy -> ncols dy = ncols W ->
    exists dx : ndarray R,
      Linear_backward (VArr dy) w = (w, Ok (VArr dx)) /\
      forall i, i < nrows dy ->
        isum (fun k => s_mul (get dx i k) (get h i k)) (nrows W)
        = isum (fun j =>
                  s_mul (get dy i j)
                        (isum (fun k => s_mul (get h i k) (get W k j))
                              (nrows W)))
               (ncols W).
Proof.
  intros R SR ER W dy h w Hw Hwf Hout.
  exists (matmul dy (transpose W)). split.
  - apply Linear_backward_run; assumption.
  - intros i Hi.
    rewrite (isum_ext _ (fun k =>
               isum (fun j => s_mul (get dy i j)
                                    (s_mul (get h i k) (get W k j)))
                    (ncols W))).
    + rewrite (isum_exchange
                 (fun k j => s_mul (get dy i j)
                                   (s_mul (get h i k) (get W k j)))).
      apply isum_ext. intros j _. rewrite isum_mul_l. reflexivity.
    + intros k Hk. rewrite matmul_transpose_get by assumption.
      rewrite isum_mul_r. apply isum_ext. intros j _.
      rewrite <- mul_assoc. f_equal. apply mul_comm.
Qed.

Lemma Linear_backward_adjoint_witness :
  exists dx : ndarray Z,
    Linear_backward (VArr scenario_upstream) scenario_world
    = (scenario_world, Ok (VArr dx)) /\
    forall i, i < nrows scenario_upstream ->
      isum (fun k => s_mul (get dx i k) (get scenario_input i k))
           (nrows scenario_weight)
      = isum (fun j =>
                s_mul (get scenario_upstream i j)
                      (isum (fun k => s_mul (get scenario_input i k)
                                            (get scenario_weight k j))
                            (nrows scenario_weight)))
             (ncols scenario_weight).
Proof.
  apply (Linear_backward_adjoint Z Z_Scalar Z_ExactScalar scenario_weight
           scenario_upstream scenario_input scenario_world);
    try reflexivity; repeat constructor.
Defined.

(** ** [Sigmoid.dx] *)

Section DiagFacts.
Context {R : Type} `{Scalar R}.

Lemma length_flatten (a : ndarray R) :
  wf a -> length (flatten a) = nrows a * ncols a.
Proof.
  unfold wf, flatten, nrows. generalize (ncols a). intros c Hwf.
  induction Hwf as [|r rs Hr _ IH]; [reflexivity|].
  simpl. rewrite length_app, IH, Hr. reflexivity.
Qed.

(** Position [i] of the flattened array is entry
    [(i / ncols, i mod ncols)]. *)
Lemma nth_flatten (a : ndarray R) (i : nat) :
  wf a -> i < nrows a * ncols a ->
  nth i (flatten a) s_zero = get a (i / ncols a) (i mod ncols a).
Proof.
  unfold wf, flatten, nrows, get. generalize (ncols a). intros c Hwf.
  revert i. induction Hwf as [|r rs Hr _ IH]; intros i Hi.
  - simpl in Hi. lia.
  - simpl in Hi. simpl concat.
    assert (Hc : c <> 0) by lia.
    destruct (Nat.lt_ge_cases i c) as [Hlt|Hge].
    + rewrite app_nth1 by lia.
      rewrite Nat.div_small, Nat.mod_small by exact Hlt. reflexivity.
    + rewrite app_nth2 by lia. rewrite Hr.
      rewrite IH by lia.
      replace i with ((i - c) + 1 * c) at 3 4 by lia.
      rewrite Nat.div_add by exact Hc.
      rewrite Nat.Div0.mod_add.
      rewrite Nat.add_1_r. reflexivity.
Qed.

End DiagFacts.

(** X12. [Sigmoid.dx] flattens the whole array that [sigmoid_prime]
    returns, batch dimension included, and lays it on the diagonal of a
    square array: for a derivative of shape (r, c) the result has shape
    (r * c, r * c), its entry (i, i) is the derivative's entry
    (i / c, i mod c), and every other entry is zero.  The layer is left as
    it was, and an exception of [sigmoid_prime] is passed on. *)
Theorem Sigmoid_dx_diagonal :
  forall (R : Type) (SR : Scalar R)
         (sigmoid_prime : value R -> result (value R))
         (x : value R) (w : world R),
    (forall p : ndarray R,
        sigmoid_prime x = Ok (VArr p) -> wf p ->
        exists D : ndarray R,
          Sigmoid_dx sigmoid_prime py_diag_flat x w = (w, Ok (VArr D)) /\
          shape D = (nrows p * ncols p, nrows p * ncols p) /\
          forall i j, i < nrows p * ncols p -> j < nrows p * ncols p ->
            get D i j
            = if decide (i = j) then get p (i / ncols p) (i mod ncols p)
              else s_zero) /\
    (forall e : exn,
        sigmoid_prime x = Err e ->
        Sigmoid_dx sigmoid_prime py_diag_flat x w = (w, Err e)).
Proof.
  intros R SR sigmoid_prime x w. split.
  - intros p Hp Hwf. exists (np_diag (flatten p)).
    split; [unfold Sigmoid_dx, bind, lift; rewrite Hp; reflexivity|].
    unfold np_diag.
    rewrite tabulate_shape, length_flatten by exact Hwf.
    split; [reflexivity|]. intros i j Hi Hj.
    rewrite tabulate_get by assumption.
    destruct (decide (i = j)); [|reflexivity].
    apply nth_flatten; assumption.
  - intros e He. unfold Sigmoid_dx, bind, lift. rewrite He. reflexivity.
Qed.

Lemma Sigmoid_dx_diagonal_witness :
  exists D : ndarray Z,
    Sigmoid_dx (fun v => Ok v) py_diag_flat
               (VArr (mk_ndarray 2 [[1; 2]; [3; 4]]%Z)) scenario_world
    = (scenario_world, Ok (VArr D)) /\
    shape D = (2 * 2, 2 * 2) /\
    forall i j, i < 2 * 2 -> j < 2 * 2 ->
      get D i j
      = if decide (i = j)
        then get (mk_ndarray 2 [[1; 2]; [3; 4]]%Z) (i / 2) (i mod 2)
        else s_zero.
Proof.
  apply (proj1 (Sigmoid_dx_diagonal Z Z_Scalar (fun v => Ok v)
                  (VArr (mk_ndarray 2 [[1; 2]; [3; 4]]%Z)) scenario_world)
               (mk_ndarray 2 [[1; 2]; [3; 4]]%Z)).
  - reflexivity.
  - repeat constructor.
Defined.
